(** * vscode-checkstyle: download coordination and session glue

    A shallow embedding of the two TypeScript sources

    - [server/src/downloadCheckstyle.ts]: the probe of the download link and
      the streamed download of the Checkstyle jar (module [Server]);
    - the extension entry point (module [Client]): the configuration
      middleware, the command wrapper and the notification listeners.

    The network, the file system and the editor window are explicit state:
    the replies of the distribution host are an input ([Network]), the file
    system is a finite map from paths to contents, and everything the code
    sends or shows is appended to a log. *)

From Stdlib Require Import ZArith QArith Qround Qpower Lqa String Ascii List Lia.
From stdpp Require Import gmap strings list fin_maps sorting pretty.

Open Scope string_scope.
Open Scope Z_scope.

(** ** JavaScript conventions shared by both files *)

Module Js.

(** What the code reads of a thrown or emitted error object: its [code]
    property, its [message] when [typeof message === 'string'], the result
    of [toString()], and whether it is an instance of
    [UserCancelledError]. *)
Record Error := {
  code : option string;
  message : option string;
  toString : string;
  isUserCancelled : bool
}.

(** Truthiness of an optional string property: [undefined] and the empty
    string are falsy. *)
Definition truthy (v : option string) : bool :=
  match v with
  | Some s => negb (String.eqb s "")
  | None => false
  end.

(** [a || b] for an optional string [a] and a string [b]. *)
Definition or_else (a : option string) (b : string) : string :=
  match a with
  | Some s => if truthy a then s else b
  | None => b
  end.

(** [ToNumber] of a number-or-null property: [null * 100] is [0]. *)
Definition toNumber (v : option Q) : Q :=
  match v with
  | Some q => q
  | None => 0%Q
  end.

(** Numbers are IEEE 754 doubles. A finite double is modelled by its exact
    value, a rational; the operations round their exact result to the
    nearest double, ties to the even mantissa. Infinities and NaN are not
    represented. *)

Definition pow2 (k : Z) : Q := ((2 # 1) ^ k)%Q.

(** The integer part of the binary logarithm of a positive rational. *)
Definition ilog2 (q : Q) : Z :=
  let k := Z.log2 (Qnum q) - Z.log2 (Zpos (Qden q)) in
  if Qle_bool (pow2 k) q then k else k - 1.

Definition roundHalfEven (x : Q) : Z :=
  let f := Qfloor x in
  match (x - inject_Z f ?= 1 # 2)%Q with
  | Lt => f
  | Gt => f + 1
  | Eq => if Z.even f then f else f + 1
  end.

(** The exponent of the last place of the double nearest to a positive
    [q]: 53 bits of mantissa, and the subnormal range below. *)
Definition exponent (q : Q) : Z := Z.max (ilog2 q - 52) (-1074).

(** Rounding to the multiples of [2 ^ e]. *)
Definition onGrid (e : Z) (q : Q) : Q :=
  (inject_Z (roundHalfEven (q / pow2 e)) * pow2 e)%Q.

Definition nearest (q : Q) : Q := onGrid (exponent q) q.

(** The double nearest to a rational. *)
Definition toDouble (q : Q) : Q :=
  match (q ?= 0)%Q with
  | Eq => 0%Q
  | Gt => nearest q
  | Lt => (- nearest (- q))%Q
  end.

(** [a * b] on doubles. *)
Definition times (a b : Q) : Q := toDouble (a * b).

(** [Math.round]: the nearest integer, ties towards positive infinity. *)
Definition Math_round (x : Q) : Z := Qfloor (x + (1 # 2))%Q.

(** A promise is pending until the first [resolve] or [reject]; later
    calls leave it as it is. *)
Inductive Promise (A : Type) : Type :=
| Pending
| Fulfilled (a : A)
| Rejected (e : Error).
Arguments Pending {A}.
Arguments Fulfilled {A} a.
Arguments Rejected {A} e.

Definition resolve {A} (a : A) (p : Promise A) : Promise A :=
  match p with
  | Pending => Fulfilled a
  | _ => p
  end.

Definition reject {A} (e : Error) (p : Promise A) : Promise A :=
  match p with
  | Pending => Rejected e
  | _ => p
  end.

End Js.

(** ** notifications.ts and errors.ts *)

Module DownloadStatus.
(** Modelled from the spec: the [DownloadStatus] enum of notifications.ts,
    whose three values are [downloading], [finished] and [error]. *)
Inductive t := downloading | finished | error.
End DownloadStatus.

(** Modelled from the spec: [new DownloadCheckstyleError(msg)] of errors.ts,
    an error object whose [message] is [msg]. *)
Definition DownloadCheckstyleError (msg : string) : Js.Error :=
  {| Js.code := None;
     Js.message := Some msg;
     Js.toString := "Error: " +:+ msg;
     Js.isUserCancelled := false |}.

(** The payload of [checkstyle/downloadStatus]: a status and the optional
    properties the sender sets for it. *)
Record IDownloadParams := {
  downloadStatus : DownloadStatus.t;
  percent : option Z;
  error : option Js.Error;
  downloadLink : option string
}.

Inductive MessageType := MsgError | MsgWarning | MsgInfo | MsgLog.

Inductive Notification :=
| ShowMessageNotification (type : MessageType) (message : string)
| VersionInvalidNotification (uri : string)
| DownloadStartNotification
| DownloadStatusNotification (param : IDownloadParams).

Definition downloadingStatus (pct : Z) : Notification :=
  DownloadStatusNotification
    {| downloadStatus := DownloadStatus.downloading;
       percent := Some pct; error := None; downloadLink := None |}.

Definition finishedStatus : Notification :=
  DownloadStatusNotification
    {| downloadStatus := DownloadStatus.finished;
       percent := None; error := None; downloadLink := None |}.

Definition errorStatus (e : Js.Error) (link : string) : Notification :=
  DownloadStatusNotification
    {| downloadStatus := DownloadStatus.error;
       percent := None; error := Some e; downloadLink := Some link |}.

(** ** server/src/downloadCheckstyle.ts *)

Module Server.

Inductive ResponseType := Found | Others | Error.

(** The run-time value of an enum member. *)
Definition ResponseType_value (r : ResponseType) : Z :=
  match r with
  | Found => 0
  | Others => 1
  | Error => 2
  end.

Record RequestResponse := { statusCode : Z }.

(** The arguments the probe's callback is called with. *)
Record ProbeReply := {
  _error : option Js.Error;
  response : option RequestResponse
}.

Record ProgressState := { state_percent : option Q }.

(** What the response stream of the download delivers: progress ticks of
    request-progress, body chunks (piped to the write stream), an error,
    the end of the body. *)
Inductive StreamEvent :=
| EvProgress (state : ProgressState)
| EvData (chunk : string)
| EvError (err : Js.Error)
| EvEnd.

(** The distribution host as the coordinator sees it. *)
Record Network := {
  probe : string -> ProbeReply;
  stream : string -> list StreamEvent
}.

(** The worker's side of the world: the files under the resources
    directory and the notifications sent on the connection, oldest
    first. *)
Record World := {
  files : gmap string string;
  sent : list Notification
}.

Definition sendNotification (n : Notification) (w : World) : World :=
  {| files := files w; sent := sent w ++ [n] |}.

Definition setFiles (fs : gmap string string) (w : World) : World :=
  {| files := fs; sent := sent w |}.

(** *** fs-extra and path *)

(** [path] of Node, on POSIX. *)

(** The segments of a path, between its slashes. *)
Fixpoint segments (path : string) : list string :=
  match path with
  | "" => [""]
  | String ch rest =>
      if Ascii.eqb ch "/" then "" :: segments rest
      else match segments rest with
           | seg :: more => String ch seg :: more
           | [] => [String ch ""]
           end
  end.

(** One segment of [normalizeString]; the stack holds the segments kept so
    far, the last one first. *)
Definition normalizeSegment (allowAboveRoot : bool) (kept : list string) (seg : string)
  : list string :=
  if String.eqb seg "" || String.eqb seg "." then kept
  else if String.eqb seg ".." then
    match kept with
    | top :: below =>
        if String.eqb top ".." then (if allowAboveRoot then seg :: kept else kept)
        else below
    | [] => if allowAboveRoot then [seg] else []
    end
  else seg :: kept.

Definition joinSegments (segs : list string) : string :=
  match segs with
  | [] => ""
  | seg :: more => fold_left (fun acc s => acc +:+ "/" +:+ s) more seg
  end.

Definition isAbsolute (path : string) : bool :=
  match path with
  | String ch _ => Ascii.eqb ch "/"
  | "" => false
  end.

Definition trailingSeparator (path : string) : bool :=
  match last (segments path) with
  | Some "" => true
  | _ => false
  end.

(** [path.normalize] of Node on POSIX. *)
Definition normalize (path : string) : string :=
  match path with
  | "" => "."
  | _ =>
      let kept := fold_left (normalizeSegment (negb (isAbsolute path))) (segments path) [] in
      let body := joinSegments (rev kept) in
      match body with
      | "" => if isAbsolute path then "/" else if trailingSeparator path then "./" else "."
      | _ =>
          (if isAbsolute path then "/" else "") +:+ body
            +:+ (if trailingSeparator path then "/" else "")
      end
  end.

(** [path.join] of two parts: the parts that are not empty, joined by a
    slash, and normalised. *)
Definition path_join (dir name : string) : string :=
  match dir, name with
  | "", _ => normalize name
  | _, "" => normalize dir
  | _, _ => normalize (dir +:+ "/" +:+ name)
  end.

Definition pathExists (p : string) (fs : gmap string string) : bool :=
  match fs !! p with
  | Some _ => true
  | None => false
  end.

Definition remove (p : string) (fs : gmap string string) : gmap string string :=
  delete p fs.

(** [rename] fails when there is nothing at the old path. *)
Definition rename (old new : string) (fs : gmap string string)
  : option (gmap string string) :=
  match fs !! old with
  | Some c => Some (<[new := c]> (delete old fs))
  | None => None
  end.

(** [createWriteStream] opens the file for writing from byte zero. *)
Definition createWriteStream (p : string) (fs : gmap string string)
  : gmap string string :=
  <[p := ""]> fs.

(** A chunk piped to the write stream; the pipe has ended the stream once
    the file is no longer at its path. *)
Definition writeChunk (p chunk : string) (fs : gmap string string)
  : gmap string string :=
  match fs !! p with
  | Some c => <[p := c +:+ chunk]> fs
  | None => fs
  end.

(** *** requestForVersion *)

(** The probe's callback: [if (!response || _error)] and, behind it, the
    test of the status code. *)
Definition classify (r : ProbeReply) : ResponseType :=
  match response r with
  | None => Error
  | Some resp =>
      match _error r with
      | Some _ => Error
      | None => if statusCode resp =? 302 then Found else Others
      end
  end.

Definition requestForVersion (net : Network) (url : string) : ResponseType :=
  classify (probe net url).

(** *** downloadCheckstyle *)

Definition checkstyleJar (version : string) : string :=
  "checkstyle-" +:+ version +:+ "-all.jar".

Definition downloadLink (version : string) : string :=
  "https://sourceforge.net/projects/checkstyle/files/checkstyle/"
    +:+ version +:+ "/" +:+ checkstyleJar version +:+ "/download".

Definition tempFilePath (downloadPath version : string) : string :=
  path_join downloadPath (checkstyleJar version +:+ ".download").

Definition finalPath (downloadPath version : string) : string :=
  path_join downloadPath (checkstyleJar version).

(** The [switch] on the probe's result, on the run-time value of the
    enum: [None] is [break], [Some b] is [return b]. *)
Definition probeSwitch (response : Z) (textDocumentUri : string) (w : World)
  : World * option bool :=
  if response =? ResponseType_value Found then (w, None)
  else if response =? ResponseType_value Error then
    (sendNotification
       (ShowMessageNotification MsgError
          "Failed to download CheckStyle, please try again later.") w,
     Some false)
  else if response =? ResponseType_value Others then
    (sendNotification (VersionInvalidNotification textDocumentUri) w,
     Some false)
  else (w, Some false).

(** [if (await pathExists(tempFilePath)) await remove(tempFilePath)] *)
Definition removeStaleTemp (tmp : string) (w : World) : World :=
  if pathExists tmp (files w) then setFiles (remove tmp (files w)) w else w.

(** A download in flight: the world and the promise of the executor. *)
Record Transfer := {
  world : World;
  settled : Js.Promise bool
}.

(** The synchronous part of the executor: [DownloadStart] is sent, the
    handlers are attached and the response is piped to a fresh write
    stream at the temp path. *)
Definition startTransfer (tmp : string) (w : World) : Transfer :=
  let w1 := sendNotification DownloadStartNotification w in
  {| world := setFiles (createWriteStream tmp (files w1)) w1;
     settled := Js.Pending |}.

Definition onProgress (state : ProgressState) (t : Transfer) : Transfer :=
  {| world :=
       sendNotification
         (downloadingStatus
            (Js.Math_round (Js.times (Js.toNumber (state_percent state)) 100)))
         (world t);
     settled := settled t |}.

Definition errorCause (err : Js.Error) : string :=
  Js.or_else (Js.code err) (Js.toString err).

Definition onError (link : string) (err : Js.Error) (t : Transfer) : Transfer :=
  {| world :=
       sendNotification
         (errorStatus
            (DownloadCheckstyleError
               ("Download Checkstyle fail: " +:+ errorCause err))
            link)
         (world t);
     settled := Js.resolve false (settled t) |}.

(** The [end] handler awaits the rename; when the rename throws, the
    handler stops there: nothing is sent and nothing is resolved. *)
Definition onEnd (tmp final : string) (t : Transfer) : Transfer :=
  match rename tmp final (files (world t)) with
  | Some fs =>
      {| world := sendNotification finishedStatus (setFiles fs (world t));
         settled := Js.resolve true (settled t) |}
  | None => t
  end.

Definition onData (tmp chunk : string) (t : Transfer) : Transfer :=
  {| world := setFiles (writeChunk tmp chunk (files (world t))) (world t);
     settled := settled t |}.

Definition handleEvent (link tmp final : string) (t : Transfer) (ev : StreamEvent)
  : Transfer :=
  match ev with
  | EvProgress state => onProgress state t
  | EvData chunk => onData tmp chunk t
  | EvError err => onError link err t
  | EvEnd => onEnd tmp final t
  end.

Definition runStream (link tmp final : string) (evs : list StreamEvent)
  (t : Transfer) : Transfer :=
  fold_left (handleEvent link tmp final) evs t.

(** *** Reading a stream *)

(** Progress ticks and body chunks; an error and the end are terminal. *)
Definition isTick (ev : StreamEvent) : bool :=
  match ev with
  | EvProgress _ | EvData _ => true
  | EvError _ | EvEnd => false
  end.

Definition isTerminalEvent (ev : StreamEvent) : bool := negb (isTick ev).

(** The fractions the progress ticks of a stream carry, in order. *)
Fixpoint progressFractions (evs : list StreamEvent) : list Q :=
  match evs with
  | [] => []
  | EvProgress state :: rest =>
      Js.toNumber (state_percent state) :: progressFractions rest
  | _ :: rest => progressFractions rest
  end.

(** The body a stream delivers: its chunks, in order. *)
Fixpoint body (evs : list StreamEvent) : string :=
  match evs with
  | [] => ""
  | EvData chunk :: rest => chunk +:+ body rest
  | _ :: rest => body rest
  end.

Definition toPercent (fraction : Q) : Z := Js.Math_round (Js.times fraction 100).

(** *** Invariants of a transfer *)


(** If the notification sent last is [finished], the temp path is free and
    the artifact is at its final path. *)
Definition promoted (tmp final : string) (t : Transfer) : Prop :=
  last (sent (world t)) = Some finishedStatus ->
  files (world t) !! tmp = None /\ is_Some (files (world t) !! final).

Definition downloadCheckstyle (net : Network) (connection : World)
  (downloadPath version textDocumentUri : string) : World * Js.Promise bool :=
  let link := downloadLink version in
  let response := requestForVersion net link in
  match probeSwitch (ResponseType_value response) textDocumentUri connection with
  | (w, Some b) => (w, Js.Fulfilled b)
  | (w, None) =>
      let tmp := tempFilePath downloadPath version in
      let w1 := removeStaleTemp tmp w in
      let t :=
        runStream link tmp (finalPath downloadPath version)
          (stream net link) (startTransfer tmp w1) in
      (world t, settled t)
  end.

(** *** When the file system fails *)

(** What the file system answers to the two calls the function awaits
    without a [try]: the error [remove] rejects with and the error [rename]
    rejects with, if they reject. [pathExists] never rejects. The connection
    stays open: [sendNotification] returns, and a write stream that fails
    reports it on the stream, not to the function. *)
Record Faults := {
  removeError : option Js.Error;
  renameError : option Js.Error
}.

Definition noFaults : Faults := {| removeError := None; renameError := None |}.

(** The [end] handler when [rename] can reject: the handler stops at the
    rejected [await], before it sends or resolves anything. *)
Definition onEndIO (faults : Faults) (tmp final : string) (t : Transfer) : Transfer :=
  match renameError faults with
  | Some _ => t
  | None => onEnd tmp final t
  end.

Definition handleEventIO (faults : Faults) (link tmp final : string)
  (t : Transfer) (ev : StreamEvent) : Transfer :=
  match ev with
  | EvEnd => onEndIO faults tmp final t
  | _ => handleEvent link tmp final t ev
  end.

Definition runStreamIO (faults : Faults) (link tmp final : string)
  (evs : list StreamEvent) (t : Transfer) : Transfer :=
  fold_left (handleEventIO faults link tmp final) evs t.

Definition isEnd (ev : StreamEvent) : bool :=
  match ev with
  | EvEnd => true
  | _ => false
  end.

(** The events that still have an effect: every [end] is lost on a
    [rename] that rejects. *)
Definition effective (faults : Faults) (evs : list StreamEvent) : list StreamEvent :=
  match renameError faults with
  | Some _ => List.filter (fun ev => negb (isEnd ev)) evs
  | None => evs
  end.

(** downloadCheckstyle with a file system that can fail. A rejected
    [await remove(tempFilePath)] is thrown out of the function: its promise
    is rejected before [DownloadStart] is sent. *)
Definition downloadCheckstyleIO (faults : Faults) (net : Network) (connection : World)
  (downloadPath version textDocumentUri : string) : World * Js.Promise bool :=
  let link := downloadLink version in
  let response := requestForVersion net link in
  match probeSwitch (ResponseType_value response) textDocumentUri connection with
  | (w, Some b) => (w, Js.Fulfilled b)
  | (w, None) =>
      let tmp := tempFilePath downloadPath version in
      match (if pathExists tmp (files w) then removeError faults else None) with
      | Some e => (w, Js.Rejected e)
      | None =>
          let w1 := removeStaleTemp tmp w in
          let t :=
            runStreamIO faults link tmp (finalPath downloadPath version)
              (stream net link) (startTransfer tmp w1) in
          (world t, settled t)
      end
  end.

End Server.

(** ** The extension entry point *)

Module DialogResponses.
(** Modelled from the spec: the two answers of the prompt that offers to
    re-enter the version-setting flow, [DialogResponses.yes] and
    [DialogResponses.cancel] of DialogResponses.ts. *)
Inductive t := yes | cancel.
End DialogResponses.

Module Client.

(** *** Configuration.computeConfiguration *)

Record ConfigurationItem := {
  section : option string;
  scopeUri : option string
}.

Record ConfigurationParams := { items : option (list ConfigurationItem) }.

Record ICheckStyleSettings := {
  autocheck : bool;
  version : string;
  configurationFile : string;
  propertiesPath : option string
}.

(** The values a [WorkspaceConfiguration] of the [checkstyle] section
    holds for the four keys the middleware reads; [None] is unset. *)
Record WorkspaceConfiguration := {
  stored_autocheck : option bool;
  stored_version : option string;
  stored_configurationFile : option string;
  stored_propertiesPath : option string
}.

(** [workspace.getConfiguration(section, resource?)] and the
    [protocol2CodeConverter.asUri] of the client. *)
Record Workspace := {
  getConfiguration : string -> option string -> WorkspaceConfiguration;
  asUri : string -> string
}.

(** [config.get(key, defaultValue)] *)
Definition get {A} (stored : option A) (defaultValue : A) : A :=
  match stored with
  | Some v => v
  | None => defaultValue
  end.

Definition resolveItem (ws : Workspace) (item : ConfigurationItem)
  : option ICheckStyleSettings :=
  if Js.truthy (section item) then None
  else
    let config :=
      match scopeUri item with
      | Some u =>
          if Js.truthy (scopeUri item)
          then getConfiguration ws "checkstyle" (Some (asUri ws u))
          else getConfiguration ws "checkstyle" None
      | None => getConfiguration ws "checkstyle" None
      end in
    Some {| autocheck := get (stored_autocheck config) false;
            version := get (stored_version config) "8.0";
            configurationFile :=
              get (stored_configurationFile config) "google_checks";
            propertiesPath := stored_propertiesPath config |}.

(** The [for] loop: one [result.push] per item. *)
Definition computeConfiguration (ws : Workspace) (params : ConfigurationParams)
  : option (list (option ICheckStyleSettings)) :=
  match items params with
  | None => None
  | Some its =>
      Some (fold_left (fun result item => (result ++ [resolveItem ws item])%list) its [])
  end.

(** *** initCommand and getErrorMessage *)

(** What the user sees: the lines of the output channel and the error and
    warning messages shown, oldest first. *)
Record Window := {
  outputChannel : list string;
  errorMessages : list string;
  warningMessages : list string
}.

Definition appendLine (line : string) (w : Window) : Window :=
  {| outputChannel := outputChannel w ++ [line];
     errorMessages := errorMessages w;
     warningMessages := warningMessages w |}.

Definition showErrorMessage (msg : string) (w : Window) : Window :=
  {| outputChannel := outputChannel w;
     errorMessages := errorMessages w ++ [msg];
     warningMessages := warningMessages w |}.

Definition showWarningMessage (msg : string) (w : Window) : Window :=
  {| outputChannel := outputChannel w;
     errorMessages := errorMessages w;
     warningMessages := warningMessages w ++ [msg] |}.

Definition getErrorMessage (err : Js.Error) : string :=
  let errorMessage :=
    match Js.message err with
    | Some m => m
    | None => Js.toString err
    end in
  "Checkstyle Error: - '" +:+ errorMessage +:+ "'".

(** How an awaited callback ends. *)
Inductive Completion := Returns | Throws (error : Js.Error).

(** A command callback acts on the window and returns or throws. *)
Definition Callback := Window -> Window * Completion.

(** The function [initCommand] registers for a command. *)
Definition wrapped (callback : Callback) (w : Window) : Window :=
  match callback w with
  | (w1, Returns) => w1
  | (w1, Throws error) =>
      if Js.isUserCancelled error then w1
      else
        let errMsg := getErrorMessage error in
        showErrorMessage errMsg (appendLine errMsg w1)
  end.

Definition initCommand (commandId : string) (callback : Callback)
  (commands : gmap string (Window -> Window)) : gmap string (Window -> Window) :=
  <[commandId := wrapped callback]> commands.

Definition executeCommand (commands : gmap string (Window -> Window))
  (commandId : string) (w : Window) : Window :=
  match commands !! commandId with
  | Some handler => handler w
  | None => w
  end.

(** *** registerClientListener *)

(** Modelled from the spec: the method names of notifications.ts. *)
Definition method (n : Notification) : string :=
  match n with
  | ShowMessageNotification _ _ => "window/showMessage"
  | VersionInvalidNotification _ => "checkstyle/versionInvalid"
  | DownloadStartNotification => "checkstyle/downloadStart"
  | DownloadStatusNotification _ => "checkstyle/downloadStatus"
  end.

Definition downloadStatusMethod : string := "checkstyle/downloadStatus".

(** The listeners the controller registers. The status listener is a
    closure over the progress task of the [DownloadStart] that registered
    it. *)
Inductive Handler :=
| OnDownloadStart
| OnDownloadStatus (task : nat)
| OnVersionInvalid.

(** One [window.withProgress] task: the messages reported to it and the
    promise that keeps it open. *)
Record ProgressTask := {
  reported : list string;
  outcome : Js.Promise unit
}.

(** The connection keeps one handler per method: [onNotification] for a
    method that already has one replaces it. The controller also holds what
    the user will answer to the prompts still to come, the next one first
    ([None] when the prompt is dismissed), and the commands it has run with
    [commands.executeCommand], each with the uri it was given. *)
Record Controller := {
  notificationHandlers : gmap string Handler;
  progress : list ProgressTask;
  window : Window;
  answers : list (option DialogResponses.t);
  executed : list (string * string)
}.

Definition onNotification (m : string) (h : Handler) (c : Controller) : Controller :=
  {| notificationHandlers := <[m := h]> (notificationHandlers c);
     progress := progress c;
     window := window c;
     answers := answers c;
     executed := executed c |}.

Definition withProgress (c : Controller) : Controller :=
  {| notificationHandlers := notificationHandlers c;
     progress :=
       progress c
         ++ [{| reported := ["Fetching the download link..."];
                outcome := Js.Pending |}];
     window := window c;
     answers := answers c;
     executed := executed c |}.

Definition updateTask (task : nat) (f : ProgressTask -> ProgressTask)
  (c : Controller) : Controller :=
  {| notificationHandlers := notificationHandlers c;
     progress := alter f task (progress c);
     window := window c;
     answers := answers c;
     executed := executed c |}.

Definition report (msg : string) (p : ProgressTask) : ProgressTask :=
  {| reported := reported p ++ [msg]; outcome := outcome p |}.

Definition settle (f : Js.Promise unit -> Js.Promise unit) (p : ProgressTask)
  : ProgressTask :=
  {| reported := reported p; outcome := f (outcome p) |}.

Definition warn (msg : string) (c : Controller) : Controller :=
  {| notificationHandlers := notificationHandlers c;
     progress := progress c;
     window := showWarningMessage msg (window c);
     answers := answers c;
     executed := executed c |}.

(** The template literal [`${param.percent}`]. *)
Definition percentText (pct : option Z) : string :=
  match pct with
  | Some z => pretty z
  | None => "undefined"
  end.

(** The status listener of progress task [task]. An [error] status without
    an [error] property makes [getErrorMessage] throw before anything is
    shown. *)
Definition onDownloadStatus (task : nat) (param : IDownloadParams)
  (c : Controller) : Controller :=
  match downloadStatus param with
  | DownloadStatus.downloading =>
      updateTask task
        (report ("Downloading checkstyle... " +:+ percentText (percent param) +:+ "%"))
        c
  | DownloadStatus.finished => updateTask task (settle (Js.resolve tt)) c
  | DownloadStatus.error =>
      match error param with
      | Some e =>
          updateTask task (settle (Js.reject e)) (warn (getErrorMessage e) c)
      | None => c
      end
  end.

Definition versionInvalidMessage : string :=
  "The Checkstyle version does not exist on download server. Would you like to update it?".

(** The user answers the prompt that is open. *)
Definition nextAnswer (c : Controller) : option DialogResponses.t * Controller :=
  match answers c with
  | answer :: later =>
      (answer,
       {| notificationHandlers := notificationHandlers c;
          progress := progress c;
          window := window c;
          answers := later;
          executed := executed c |})
  | [] => (None, c)
  end.

(** [commands.executeCommand(commandId, uri)]; the uri is the one the client
    converts with [asUri]. *)
Definition runCommand (commandId uri : string) (c : Controller) : Controller :=
  {| notificationHandlers := notificationHandlers c;
     progress := progress c;
     window := window c;
     answers := answers c;
     executed := executed c ++ [(commandId, uri)] |}.

(** The listener for an invalid version: the warning offers Yes and
    Cancel, and Yes runs the command that sets the version. *)
Definition onVersionInvalid (uri : string) (c : Controller) : Controller :=
  match nextAnswer (warn versionInvalidMessage c) with
  | (Some DialogResponses.yes, c1) => runCommand "checkstyle.setVersion" uri c1
  | (_, c1) => c1
  end.

Definition runHandler (h : Handler) (n : Notification) (c : Controller)
  : Controller :=
  match h, n with
  | OnDownloadStart, _ =>
      let task := length (progress c) in
      onNotification downloadStatusMethod (OnDownloadStatus task) (withProgress c)
  | OnDownloadStatus task, DownloadStatusNotification param =>
      onDownloadStatus task param c
  | OnVersionInvalid, VersionInvalidNotification uri =>
      onVersionInvalid uri c
  | _, _ => c
  end.

(** A notification that arrives is given to the handler of its method. *)
Definition receive (c : Controller) (n : Notification) : Controller :=
  match notificationHandlers c !! method n with
  | Some h => runHandler h n c
  | None => c
  end.

(** The listeners for the download and for an invalid version; the
    listeners that relay check and server status to the status bar are
    not part of this model. *)
Definition registerClientListener (c : Controller) : Controller :=
  onNotification "checkstyle/versionInvalid" OnVersionInvalid
    (onNotification "checkstyle/downloadStart" OnDownloadStart c).

Definition isTerminal (param : IDownloadParams) : bool :=
  match downloadStatus param with
  | DownloadStatus.downloading => false
  | _ => true
  end.

(** No listener is registered for [checkstyle/downloadStatus]. *)
Definition detached (c : Controller) : Prop :=
  notificationHandlers c !! downloadStatusMethod = None.

End Client.

(** ** Concrete runs *)

Module Scenario.
Import Server.

Definition ok302 : ProbeReply :=
  {| _error := None; response := Some {| statusCode := 302 |} |}.

Definition ok200 : ProbeReply :=
  {| _error := None; response := Some {| statusCode := 200 |} |}.

Definition timedOut : Js.Error :=
  {| Js.code := Some "ETIMEDOUT";
     Js.message := Some "ETIMEDOUT";
     Js.toString := "Error: ETIMEDOUT";
     Js.isUserCancelled := false |}.

Definition noReply : ProbeReply :=
  {| _error := Some timedOut; response := None |}.

(** A progress event whose fraction is the double nearest to [q]. *)
Definition tick (q : Q) : StreamEvent :=
  EvProgress {| state_percent := Some (Js.toDouble q) |}.

(** Version 8.0 exists: progress at 10, 50 and 100 percent, then the end. *)
Definition goodTicks : list StreamEvent :=
  [tick (1 # 10); EvData "PK"; tick (1 # 2); EvData "34"; tick 1].

Definition goodHost : Network :=
  {| probe := fun _ => ok302; stream := fun _ => (goodTicks ++ [EvEnd])%list |}.

(** Version 999.0 does not exist: the host answers 200. *)
Definition noSuchVersion : Network :=
  {| probe := fun _ => ok200; stream := fun _ => [] |}.

Definition unreachable : Network :=
  {| probe := fun _ => noReply; stream := fun _ => [] |}.

(** The connection is reset after a quarter of the body. *)
Definition resetTicks : list StreamEvent := [tick (1 # 4); EvData "PK"].

Definition reset : Js.Error :=
  {| Js.code := Some "ECONNRESET";
     Js.message := Some "socket hang up";
     Js.toString := "Error: socket hang up";
     Js.isUserCancelled := false |}.

Definition brokenHost : Network :=
  {| probe := fun _ => ok302; stream := fun _ => (resetTicks ++ [EvError reset])%list |}.

(** A resources directory with a temp file left by an interrupted
    download of 8.0. *)
Definition staleWorld : World :=
  {| files := {[ "/res/checkstyle-8.0-all.jar.download" := "stale" ]};
     sent := [] |}.

Definition mainJava : string := "file:///ws/src/Main.java".

Definition goodRun := downloadCheckstyle goodHost staleWorld "/res" "8.0" mainJava.

Definition invalidRun := downloadCheckstyle noSuchVersion staleWorld "/res" "999.0" mainJava.

Definition unreachableRun := downloadCheckstyle unreachable staleWorld "/res" "8.0" mainJava.

Definition brokenRun := downloadCheckstyle brokenHost staleWorld "/res" "8.0" mainJava.

Definition emptyWindow : Client.Window :=
  {| Client.outputChannel := []; Client.errorMessages := [];
     Client.warningMessages := [] |}.

Definition freshController : Client.Controller :=
  Client.registerClientListener
    {| Client.notificationHandlers := ∅; Client.progress := [];
       Client.window := emptyWindow; Client.answers := [];
       Client.executed := [] |}.

(** A download is announced and then reported as finished. *)
Definition afterFinished : Client.Controller :=
  Client.receive (Client.receive freshController DownloadStartNotification) finishedStatus.

(** Items for a named section, for a resource and for the workspace. *)
Definition query : Client.ConfigurationParams :=
  {| Client.items :=
       Some [ {| Client.section := Some "java"; Client.scopeUri := Some mainJava |};
              {| Client.section := None; Client.scopeUri := Some mainJava |};
              {| Client.section := None; Client.scopeUri := None |} ] |}.

Definition plainWorkspace : Client.Workspace :=
  {| Client.getConfiguration := fun _ resource =>
       match resource with
       | Some _ =>
           {| Client.stored_autocheck := Some true;
              Client.stored_version := Some "8.9";
              Client.stored_configurationFile := None;
              Client.stored_propertiesPath := Some "/ws/checkstyle.properties" |}
       | None =>
           {| Client.stored_autocheck := None;
              Client.stored_version := None;
              Client.stored_configurationFile := None;
              Client.stored_propertiesPath := None |}
       end;
     Client.asUri := fun u => u |}.

Definition cancelled : Js.Error :=
  {| Js.code := None;
     Js.message := Some "Operation cancelled.";
     Js.toString := "Error: Operation cancelled.";
     Js.isUserCancelled := true |}.

Definition cancelling : Client.Callback := fun w => (w, Client.Throws cancelled).

Definition failing : Client.Callback := fun w => (w, Client.Throws timedOut).

End Scenario.

(** ** Reading the notifications of a call *)

Module Trace.
Import Server.


(** The percents of the [downloading] statuses of a log, in order. *)
Fixpoint downloadingPercents (log : list Notification) : list Z :=
  match log with
  | [] => []
  | DownloadStatusNotification param :: rest =>
      match downloadStatus param, percent param with
      | DownloadStatus.downloading, Some pct => pct :: downloadingPercents rest
      | _, _ => downloadingPercents rest
      end
  | _ :: rest => downloadingPercents rest
  end.

(** What a call has sent: the log after it, without what was in the log
    before it. *)
Definition emitted (connection after : World) : list Notification :=
  drop (length (sent connection)) (sent after).

End Trace.

(** ** The controller on a sequence of notifications *)

Module Relay.
Import Client.

Definition deliver (c : Controller) (ns : list Notification) : Controller :=
  fold_left receive ns c.

(** The message the status listener reports for a percent. *)
Definition progressText (pct : Z) : string :=
  "Downloading checkstyle... " +:+ pretty pct +:+ "%".

(** The listeners are the ones [registerClientListener] and the
    [DownloadStart] listener register: the two registered at start-up, none
    for the messages the language client shows itself, and for the download
    status none or the listener of a progress task that exists. *)
Definition wired (c : Controller) : Prop :=
  notificationHandlers c !! "checkstyle/downloadStart" = Some OnDownloadStart /\
  notificationHandlers c !! "checkstyle/versionInvalid" = Some OnVersionInvalid /\
  notificationHandlers c !! "window/showMessage" = None /\
  (forall h : Handler,
      notificationHandlers c !! downloadStatusMethod = Some h ->
      exists task : nat, h = OnDownloadStatus task /\ (task < length (progress c))%nat).

Definition isDownloadStart (n : Notification) : bool :=
  match n with
  | DownloadStartNotification => true
  | _ => false
  end.

(** How many [DownloadStart] notifications a sequence holds. *)
Definition starts (ns : list Notification) : nat :=
  length (List.filter isDownloadStart ns).

(** The progress task of a download whose statuses reported [percents] and
    whose promise is [settledAs]. *)
Definition taskOf (percents : list Z) (settledAs : Js.Promise unit) : ProgressTask :=
  {| reported := "Fetching the download link..." :: map progressText percents;
     outcome := settledAs |}.

End Relay.

(** ** The commands of activate *)

Module Activation.
Import Client.

(** The callbacks [activate] registers; they come from the command
    modules. *)
Record CommandCallbacks := {
  checkCodeWithCheckstyle : Callback;
  setCheckstyleVersion : Callback;
  setCheckstyleConfig : Callback;
  setCheckstyleProperties : Callback;
  setAutoCheckStatus : Callback
}.

(** The five [initCommand] calls of [activate], the first one innermost. *)
Definition registerCommands (callbacks : CommandCallbacks)
  (commands : gmap string (Window -> Window)) : gmap string (Window -> Window) :=
  initCommand "checkstyle.setAutocheck" (setAutoCheckStatus callbacks)
    (initCommand "checkstyle.setPropertyFile" (setCheckstyleProperties callbacks)
       (initCommand "checkstyle.setConfigurationFile" (setCheckstyleConfig callbacks)
          (initCommand "checkstyle.setVersion" (setCheckstyleVersion callbacks)
             (initCommand "checkstyle.checkCodeWithCheckstyle"
                (checkCodeWithCheckstyle callbacks) commands)))).

Definition commandIds : list string :=
  [ "checkstyle.checkCodeWithCheckstyle"; "checkstyle.setVersion";
    "checkstyle.setConfigurationFile"; "checkstyle.setPropertyFile";
    "checkstyle.setAutocheck" ].

End Activation.

(** ** Configuration.initialize and Configuration.dispose *)

Module ConfigurationListener.

(** [DidChangeConfigurationNotification] with its [settings]. *)
Inductive ClientNotification :=
| DidChangeConfigurationNotification (settings : option string).

(** The listeners this code has on [workspace.onDidChangeConfiguration]
    (each subscription has its own disposable, named by a number), the
    module variable [configurationListener], and what the client has sent
    to the server. *)
Record Host := {
  subscriptions : list nat;
  nextSubscription : nat;
  configurationListener : option nat;
  toServer : list ClientNotification
}.

Definition initialize (h : Host) : Host :=
  {| subscriptions := subscriptions h ++ [nextSubscription h];
     nextSubscription := S (nextSubscription h);
     configurationListener := Some (nextSubscription h);
     toServer := toServer h |}.

(** [if (configurationListener) configurationListener.dispose()]: the
    variable keeps the disposable. *)
Definition dispose (h : Host) : Host :=
  match configurationListener h with
  | Some d =>
      {| subscriptions := filter (fun s => s ≠ d) (subscriptions h);
         nextSubscription := nextSubscription h;
         configurationListener := configurationListener h;
         toServer := toServer h |}
  | None => h
  end.

(** The configuration changes: every listener sends its notification. *)
Definition configurationChanged (h : Host) : Host :=
  {| subscriptions := subscriptions h;
     nextSubscription := nextSubscription h;
     configurationListener := configurationListener h;
     toServer :=
       toServer h
         ++ map (fun _ => DidChangeConfigurationNotification None) (subscriptions h) |}.

(** Disposables are handed out once. *)
Definition fresh (h : Host) : Prop :=
  Forall (fun s => (s < nextSubscription h)%nat) (subscriptions h).

Definition startup : Host :=
  {| subscriptions := []; nextSubscription := 0;
     configurationListener := None; toServer := [] |}.

End ConfigurationListener.

(** ** More concrete runs *)

Module Cases.
Import Server Scenario.

(** The error is reported and the body ends all the same. *)
Definition errorThenEnd : Network :=
  {| probe := fun _ => ok302;
     stream := fun _ => (resetTicks ++ [EvError reset; EvEnd])%list |}.

(** The host reports more than the whole and then less than before. *)
Definition overshooting : Network :=
  {| probe := fun _ => ok302;
     stream := fun _ => [tick (3 # 2); tick (1 # 4); EvEnd] |}.

(** The first attempt on the broken host, the second on the good one. *)
Definition retried := downloadCheckstyle goodHost (fst brokenRun) "/res" "8.0" mainJava.

Definition callbacks : Activation.CommandCallbacks :=
  {| Activation.checkCodeWithCheckstyle := failing;
     Activation.setCheckstyleVersion := cancelling;
     Activation.setCheckstyleConfig := fun w => (w, Client.Returns);
     Activation.setCheckstyleProperties := fun w => (w, Client.Returns);
     Activation.setAutoCheckStatus := fun w => (w, Client.Returns) |}.

Definition scopedItem : Client.ConfigurationItem :=
  {| Client.section := None; Client.scopeUri := Some mainJava |}.

Definition sectionItem : Client.ConfigurationItem :=
  {| Client.section := Some "java"; Client.scopeUri := None |}.

(** A resources directory that also holds the jar of 7.0. *)
Definition busyWorld : World :=
  {| files := {[ "/res/checkstyle-8.0-all.jar.download" := "stale";
                 "/res/checkstyle-7.0-all.jar" := "old" ]};
     sent := [] |}.

(** A workspace like [plainWorkspace] whose other sections hold something
    else. *)
Definition otherWorkspace : Client.Workspace :=
  {| Client.getConfiguration := fun section resource =>
       if String.eqb section "checkstyle"
       then Client.getConfiguration plainWorkspace section resource
       else {| Client.stored_autocheck := Some true;
               Client.stored_version := Some "1.0";
               Client.stored_configurationFile := Some "sun_checks";
               Client.stored_propertiesPath := None |};
     Client.asUri := fun u => u |}.

(** Two downloads are announced; the first one has finished. *)
Definition secondStarted : Client.Controller :=
  Client.receive afterFinished DownloadStartNotification.

Definition halfway : Notification := downloadingStatus 50.



(** The user will answer Yes to the next prompt. *)
Definition agreeing : Client.Controller :=
  Client.registerClientListener
    {| Client.notificationHandlers := ∅; Client.progress := [];
       Client.window := emptyWindow;
       Client.answers := [Some DialogResponses.yes];
       Client.executed := [] |}.

End Cases.

(** ** Arithmetic of the percentage *)

Lemma Math_round_mono (x y : Q) :
  (x <= y)%Q -> Js.Math_round x <= Js.Math_round y.
Proof.
  intros Hxy. unfold Js.Math_round. apply Qfloor_resp_le.
  apply Qplus_le_compat; [exact Hxy | apply Qle_refl].
Qed.

Lemma Math_round_nearest (x : Q) :
  (inject_Z (Js.Math_round x) - (1 # 2) <= x)%Q /\
  (x < inject_Z (Js.Math_round x) + (1 # 2))%Q.
Proof.
  unfold Js.Math_round.
  pose proof (Qfloor_le (x + (1 # 2))) as Hle.
  pose proof (Qlt_floor (x + (1 # 2))) as Hlt.
  rewrite inject_Z_plus in Hlt. change (inject_Z 1) with 1%Q in Hlt.
  split; lra.
Qed.

(** ** Rounding to doubles *)

Lemma pow2_pos (k : Z) : (0 < Js.pow2 k)%Q.
Proof. apply Qpower_0_lt. reflexivity. Qed.

Lemma pow2_le (a b : Z) : a <= b -> (Js.pow2 a <= Js.pow2 b)%Q.
Proof. intros Hab. apply Qpower_le_compat_l; [exact Hab | discriminate]. Qed.

Lemma pow2_plus (a b : Z) : (Js.pow2 (a + b) == Js.pow2 a * Js.pow2 b)%Q.
Proof. apply Qpower_plus. discriminate. Qed.

Lemma pow2_succ (a : Z) : (Js.pow2 (a + 1) == 2 * Js.pow2 a)%Q.
Proof. rewrite pow2_plus. change (Js.pow2 1) with (2 # 1)%Q. ring. Qed.

Lemma pow2_inject (k : Z) : 0 <= k -> (Js.pow2 k == inject_Z (2 ^ k))%Q.
Proof. intros Hk. unfold Js.pow2. now rewrite Zpower_Qpower. Qed.

Lemma ilog2_spec (q : Q) :
  (0 < q)%Q -> (Js.pow2 (Js.ilog2 q) <= q)%Q /\ (q < Js.pow2 (Js.ilog2 q + 1))%Q.
Proof.
  intros Hq. destruct q as [n d]. unfold Js.ilog2. cbn [Qnum Qden].
  assert (Hn : 0 < n) by (unfold Qlt in Hq; simpl in Hq; lia).
  set (a := Z.log2 n). set (b := Z.log2 (Z.pos d)).
  destruct (Z.log2_spec n Hn) as [Ha1 Ha2]. fold a in Ha1, Ha2.
  destruct (Z.log2_spec (Z.pos d) eq_refl) as [Hb1 Hb2]. fold b in Hb1, Hb2.
  assert (Ha0 : 0 <= a) by apply Z.log2_nonneg.
  assert (Hb0 : 0 <= b) by apply Z.log2_nonneg.
  pose proof (pow2_pos (a - b)) as HP.
  assert (HPB : (Js.pow2 (a - b) * Js.pow2 b == Js.pow2 a)%Q).
  { rewrite <- pow2_plus. now replace (a - b + b) with a by ring. }
  rewrite (pow2_inject a Ha0), (pow2_inject b Hb0) in HPB.
  assert (HqD : ((n # d) * inject_Z (Z.pos d) == inject_Z n)%Q).
  { unfold Qeq, Qmult, inject_Z. simpl. lia. }
  assert (HA1 : (inject_Z (2 ^ a) <= inject_Z n)%Q) by (rewrite <- Zle_Qle; exact Ha1).
  assert (HA2 : (inject_Z n < 2 * inject_Z (2 ^ a))%Q).
  { change 2%Q with (inject_Z 2). rewrite <- inject_Z_mult, <- Zlt_Qlt.
    replace (2 * 2 ^ a) with (2 ^ Z.succ a) by (rewrite Z.pow_succ_r; lia). exact Ha2. }
  assert (HB1 : (inject_Z (2 ^ b) <= inject_Z (Z.pos d))%Q) by (rewrite <- Zle_Qle; exact Hb1).
  assert (HB2 : (inject_Z (Z.pos d) < 2 * inject_Z (2 ^ b))%Q).
  { change 2%Q with (inject_Z 2). rewrite <- inject_Z_mult, <- Zlt_Qlt.
    replace (2 * 2 ^ b) with (2 ^ Z.succ b) by (rewrite Z.pow_succ_r; lia). exact Hb2. }
  assert (HD : (0 < inject_Z (Z.pos d))%Q) by reflexivity.
  assert (HB : (0 < inject_Z (2 ^ b))%Q).
  { rewrite <- (pow2_inject b Hb0). apply pow2_pos. }
  destruct (Qle_bool (Js.pow2 (a - b)) (n # d)) eqn:Hle.
  - apply Qle_bool_iff in Hle. split; [exact Hle|].
    rewrite pow2_succ.
    apply Qmult_lt_r with (z := inject_Z (Z.pos d)); [exact HD|].
    rewrite HqD. nra.
  - assert (Hlt : (n # d < Js.pow2 (a - b))%Q).
    { apply Qnot_le_lt. intros H. apply Qle_bool_iff in H. congruence. }
    replace (a - b - 1 + 1) with (a - b) by ring. split; [|exact Hlt].
    assert (Hhalf : (2 * Js.pow2 (a - b - 1) == Js.pow2 (a - b))%Q).
    { rewrite <- pow2_succ. now replace (a - b - 1 + 1) with (a - b) by ring. }
    pose proof (pow2_pos (a - b - 1)) as HP'.
    apply Qmult_le_r with (z := inject_Z (Z.pos d)); [exact HD|].
    rewrite HqD. nra.
Qed.

Lemma ilog2_mono (p q : Q) : (0 < p)%Q -> (p <= q)%Q -> Js.ilog2 p <= Js.ilog2 q.
Proof.
  intros Hp Hpq. assert (Hq : (0 < q)%Q) by lra.
  destruct (ilog2_spec p Hp) as [Hp1 _]. destruct (ilog2_spec q Hq) as [_ Hq2].
  destruct (Z_le_gt_dec (Js.ilog2 p) (Js.ilog2 q)) as [|Hgt]; [assumption|].
  pose proof (pow2_le (Js.ilog2 q + 1) (Js.ilog2 p) ltac:(lia)). lra.
Qed.

Lemma roundHalfEven_bounds (x : Q) :
  Qfloor x <= Js.roundHalfEven x <= Qfloor x + 1.
Proof.
  unfold Js.roundHalfEven. destruct (Qcompare _ _); [destruct (Z.even _)| |]; lia.
Qed.

Lemma roundHalfEven_mono (x y : Q) :
  (x <= y)%Q -> Js.roundHalfEven x <= Js.roundHalfEven y.
Proof.
  intros Hxy. pose proof (Qfloor_resp_le x y Hxy) as Hfloor.
  pose proof (roundHalfEven_bounds x) as Hx. pose proof (roundHalfEven_bounds y) as Hy.
  destruct (Z.eq_dec (Qfloor x) (Qfloor y)) as [Heq | Hne]; [|lia].
  unfold Js.roundHalfEven. rewrite Heq.
  destruct (Qcompare_spec (x - inject_Z (Qfloor y)) (1 # 2)) as [Hx' | Hx' | Hx'];
    destruct (Qcompare_spec (y - inject_Z (Qfloor y)) (1 # 2)) as [Hy' | Hy' | Hy'];
    try destruct (Z.even (Qfloor y)); try lia; lra.
Qed.

Lemma roundHalfEven_Z (n : Z) : Js.roundHalfEven (inject_Z n) = n.
Proof.
  unfold Js.roundHalfEven. rewrite Qfloor_Z.
  destruct (Qcompare_spec (inject_Z n - inject_Z n) (1 # 2)) as [H | H | H];
    [lra | reflexivity | lra].
Qed.

Lemma roundHalfEven_comp (x y : Q) : (x == y)%Q -> Js.roundHalfEven x = Js.roundHalfEven y.
Proof.
  intros Hxy. apply Z.le_antisymm; apply roundHalfEven_mono; lra.
Qed.

Lemma onGrid_mono (e : Z) (p q : Q) : (p <= q)%Q -> (Js.onGrid e p <= Js.onGrid e q)%Q.
Proof.
  intros Hpq. unfold Js.onGrid. pose proof (pow2_pos e) as He.
  apply Qmult_le_compat_r; [|lra].
  rewrite <- Zle_Qle. apply roundHalfEven_mono.
  unfold Qdiv. apply Qmult_le_compat_r; [exact Hpq|].
  apply Qlt_le_weak, Qinv_lt_0_compat, He.
Qed.

Lemma onGrid_pow2 (e k : Z) : e <= k -> (Js.onGrid e (Js.pow2 k) == Js.pow2 k)%Q.
Proof.
  intros Hek. unfold Js.onGrid. pose proof (pow2_pos e) as He.
  assert (Hdiv : (Js.pow2 k / Js.pow2 e == inject_Z (2 ^ (k - e)))%Q).
  { rewrite <- pow2_inject by lia.
    replace k with ((k - e) + e) at 1 by ring. rewrite pow2_plus.
    field. lra. }
  rewrite (roundHalfEven_comp _ _ Hdiv), roundHalfEven_Z.
  rewrite <- pow2_inject by lia. rewrite <- pow2_plus.
  now replace (k - e + e) with k by ring.
Qed.

Lemma nearest_onGrid (q : Q) : Js.nearest q = Js.onGrid (Js.exponent q) q.
Proof. reflexivity. Qed.

Lemma nearest_mono (p q : Q) :
  (0 < p)%Q -> (p <= q)%Q -> (Js.nearest p <= Js.nearest q)%Q.
Proof.
  intros Hp Hpq. assert (Hq : (0 < q)%Q) by lra.
  rewrite !nearest_onGrid.
  pose proof (ilog2_mono p q Hp Hpq) as Hlog.
  destruct (Z.eq_dec (Js.exponent p) (Js.exponent q)) as [Heq | Hne].
  - rewrite Heq. now apply onGrid_mono.
  - assert (Hlt : Js.exponent p < Js.exponent q) by (unfold Js.exponent in *; lia).
    destruct (ilog2_spec p Hp) as [_ Hp2]. destruct (ilog2_spec q Hq) as [Hq1 _].
    assert (Hsep : (p <= Js.pow2 (Js.ilog2 q))%Q).
    { pose proof (pow2_le (Js.ilog2 p + 1) (Js.ilog2 q) ltac:(unfold Js.exponent in *; lia)). lra. }
    apply Qle_trans with (Js.pow2 (Js.ilog2 q)).
    + rewrite <- (onGrid_pow2 (Js.exponent p) (Js.ilog2 q)) by (unfold Js.exponent in *; lia).
      now apply onGrid_mono.
    + rewrite <- (onGrid_pow2 (Js.exponent q) (Js.ilog2 q)) at 1 by (unfold Js.exponent in *; lia).
      now apply onGrid_mono.
Qed.

Lemma nearest_nonneg (q : Q) : (0 <= q)%Q -> (0 <= Js.nearest q)%Q.
Proof.
  intros Hq. unfold Js.nearest, Js.onGrid. pose proof (pow2_pos (Js.exponent q)) as He.
  apply Qmult_le_0_compat; [|lra].
  change 0%Q with (inject_Z 0). rewrite <- Zle_Qle.
  rewrite <- (roundHalfEven_Z 0). apply roundHalfEven_mono.
  unfold Qdiv. apply Qmult_le_0_compat; [exact Hq|].
  apply Qlt_le_weak, Qinv_lt_0_compat, He.
Qed.

Lemma toDouble_mono (p q : Q) : (p <= q)%Q -> (Js.toDouble p <= Js.toDouble q)%Q.
Proof.
  intros Hpq. unfold Js.toDouble.
  destruct (Qcompare_spec p 0) as [Hp | Hp | Hp];
    destruct (Qcompare_spec q 0) as [Hq | Hq | Hq]; try lra.
  - apply nearest_nonneg. lra.
  - pose proof (nearest_nonneg (- p) ltac:(lra)). lra.
  - pose proof (nearest_mono (- q) (- p) ltac:(lra) ltac:(lra)). lra.
  - pose proof (nearest_nonneg (- p) ltac:(lra)).
    pose proof (nearest_nonneg q ltac:(lra)). lra.
  - now apply nearest_mono.
Qed.

Lemma toPercent_mono (p q : Q) :
  (p <= q)%Q -> Server.toPercent p <= Server.toPercent q.
Proof.
  intros Hpq. apply Math_round_mono. apply toDouble_mono.
  apply Qmult_le_compat_r; [exact Hpq | discriminate].
Qed.

Lemma toPercent_bounds (q : Q) :
  (0 <= q)%Q -> (q <= 1)%Q -> 0 <= Server.toPercent q <= 100.
Proof.
  intros H0 H1. split.
  - change 0 with (Server.toPercent 0). now apply toPercent_mono.
  - replace 100 with (Server.toPercent 1) by (vm_compute; reflexivity).
    now apply toPercent_mono.
Qed.

(** ** Strings and paths *)

Lemma append_length (a b : string) :
  String.length (a +:+ b) = (String.length a + String.length b)%nat.
Proof.
  induction a as [|ch a IH]; [reflexivity|].
  change (S (String.length (a +:+ b)) = S (String.length a + String.length b)).
  now rewrite IH.
Qed.

Lemma append_assoc (a b c : string) : (a +:+ b) +:+ c = a +:+ (b +:+ c).
Proof.
  induction a as [|ch a IH]; [reflexivity|].
  change (String ch ((a +:+ b) +:+ c) = String ch (a +:+ (b +:+ c))).
  now rewrite IH.
Qed.

Lemma append_empty_r (a : string) : a +:+ "" = a.
Proof.
  induction a as [|ch a IH]; [reflexivity|].
  change (String ch (a +:+ "") = String ch a). now rewrite IH.
Qed.

Lemma append_cons (ch : Ascii.ascii) (a b : string) :
  String ch a +:+ b = String ch (a +:+ b).
Proof. reflexivity. Qed.

Lemma append_last_char (a b : string) (ch ch' : Ascii.ascii) :
  a +:+ String ch "" = b +:+ String ch' "" -> ch = ch'.
Proof.
  revert b. induction a as [|x a IH]; intros [|y b] Heq.
  - now injection Heq.
  - rewrite append_cons in Heq. injection Heq as _ Heq.
    destruct b; discriminate Heq.
  - rewrite append_cons in Heq. injection Heq as _ Heq.
    destruct a; discriminate Heq.
  - rewrite !append_cons in Heq. injection Heq as _ Heq. now apply (IH b).
Qed.

Lemma segments_last (path : string) :
  exists (init : list string) (l : string), Server.segments path = (init ++ [l])%list.
Proof.
  induction path as [|ch rest (init & l & IH)].
  - now exists [], "".
  - simpl. destruct (Ascii.eqb ch "/").
    + exists ("" :: init), l. now rewrite IH.
    + rewrite IH. destruct init as [|x init]; simpl.
      * now exists [], (String ch l).
      * now exists (String ch x :: init), l.
Qed.

(** A suffix without a slash extends the last segment. *)
Lemma segments_app_suffix (path suffix : string) :
  Server.segments suffix = [suffix] ->
  exists (init : list string) (l : string),
    Server.segments (path +:+ suffix) = (init ++ [l +:+ suffix])%list.
Proof.
  intros Hsuffix. induction path as [|ch rest (init & l & IH)].
  - exists [], "". exact Hsuffix.
  - rewrite append_cons. simpl. destruct (Ascii.eqb ch "/").
    + exists ("" :: init), l. now rewrite IH.
    + rewrite IH. destruct init as [|x init]; simpl.
      * now exists [], (String ch l).
      * now exists (String ch x :: init), l.
Qed.

Lemma segments_slash (dir name : string) :
  Server.segments (dir +:+ "/" +:+ name) = (Server.segments dir ++ Server.segments name)%list.
Proof.
  induction dir as [|ch rest IH].
  - reflexivity.
  - rewrite append_cons. simpl. destruct (Ascii.eqb ch "/").
    + now rewrite IH.
    + rewrite IH. destruct (segments_last rest) as (init & l & ->).
      now destruct init.
Qed.

Lemma joinSegments_snoc (segs : list string) (seg : string) :
  exists before : string, Server.joinSegments (segs ++ [seg]) = before +:+ seg.
Proof.
  destruct segs as [|first more]; simpl.
  - now exists "".
  - rewrite fold_left_app. simpl. eexists. rewrite <- append_assoc. reflexivity.
Qed.

(** A path whose name ends with a suffix of three characters or more
    without a slash keeps the suffix under [Server.normalize]. *)
Lemma normalize_suffix (path suffix : string) :
  Server.segments suffix = [suffix] ->
  (3 <= String.length suffix)%nat ->
  exists before : string, Server.normalize (path +:+ suffix) = before +:+ suffix.
Proof.
  intros Hsuffix Hlen.
  destruct (segments_app_suffix path suffix Hsuffix) as (init & l & Hsegs).
  assert (Hseg : forall allow kept,
             Server.normalizeSegment allow kept (l +:+ suffix) = (l +:+ suffix) :: kept).
  { intros allow kept. unfold Server.normalizeSegment.
    assert (Hn : (3 <= String.length (l +:+ suffix))%nat) by (rewrite append_length; lia).
    destruct (String.eqb_spec (l +:+ suffix) "") as [E|_]; [rewrite E in Hn; simpl in Hn; lia|].
    destruct (String.eqb_spec (l +:+ suffix) ".") as [E|_]; [rewrite E in Hn; simpl in Hn; lia|].
    destruct (String.eqb_spec (l +:+ suffix) "..") as [E|_]; [rewrite E in Hn; simpl in Hn; lia|].
    reflexivity. }
  assert (Hne : exists ch rest, path +:+ suffix = String ch rest).
  { destruct path as [|ch rest]; [|rewrite append_cons; eauto].
    destruct suffix; [simpl in Hlen; lia | simpl; eauto]. }
  destruct Hne as (ch & rest & Hpath).
  unfold Server.normalize. rewrite Hpath. rewrite <- Hpath.
  unfold Server.trailingSeparator. rewrite Hsegs, fold_left_app, last_snoc. simpl fold_left.
  rewrite Hseg. simpl rev.
  destruct (joinSegments_snoc
              (rev (fold_left (Server.normalizeSegment (negb (Server.isAbsolute (path +:+ suffix)))) init []))
              (l +:+ suffix)) as (before & ->).
  assert (Hlast : match l +:+ suffix with "" => true | _ => false end = false).
  { destruct (l +:+ suffix) eqn:E; [|reflexivity].
    apply (f_equal String.length) in E. rewrite append_length in E. simpl in E. lia. }
  rewrite Hlast.
  destruct (before +:+ l +:+ suffix) eqn:Hbody.
  { apply (f_equal String.length) in Hbody. rewrite !append_length in Hbody.
    simpl in Hbody. lia. }
  rewrite <- Hbody, append_empty_r.
  exists ((if Server.isAbsolute (path +:+ suffix) then "/" else "") +:+ before +:+ l).
  now rewrite !append_assoc.
Qed.

Lemma path_join_suffix (dir name suffix : string) :
  Server.segments suffix = [suffix] ->
  (3 <= String.length suffix)%nat ->
  exists before : string, Server.path_join dir (name +:+ suffix) = before +:+ suffix.
Proof.
  intros Hsuffix Hlen. unfold Server.path_join.
  destruct (name +:+ suffix) eqn:Hname.
  { apply (f_equal String.length) in Hname. rewrite append_length in Hname.
    simpl in Hname. lia. }
  rewrite <- Hname. destruct dir as [|ch dir].
  - now apply normalize_suffix.
  - rewrite <- !append_assoc. now apply normalize_suffix.
Qed.

(** [path.join] on the paths of the manual of Node and on the paths of a
    download. *)
Lemma path_join_posix :
  Server.path_join "/res" "checkstyle-8.0-all.jar" = "/res/checkstyle-8.0-all.jar" /\
  Server.path_join "/res/" "checkstyle-8.0-all.jar" = "/res/checkstyle-8.0-all.jar" /\
  Server.path_join "/res" "checkstyle-x/../checkstyle-7.0-all.jar"
    = "/res/checkstyle-7.0-all.jar" /\
  Server.path_join "/res" "../../a" = "/a" /\
  Server.path_join "res" "../../a" = "../a" /\
  Server.path_join "../a" "../../b//c/./d" = "../../b/c/d" /\
  Server.path_join "/res" "a/" = "/res/a/" /\
  Server.path_join "a/" "../" = "./" /\
  Server.path_join "/a" "../.." = "/" /\
  Server.path_join "" "a" = "a" /\
  Server.path_join "/res" "" = "/res" /\
  Server.path_join "" "" = ".".
Proof. repeat split; reflexivity. Qed.

Lemma tempFilePath_suffix (downloadPath version : string) :
  exists before : string,
    Server.tempFilePath downloadPath version = before +:+ "-all.jar.download".
Proof.
  unfold Server.tempFilePath, Server.checkstyleJar.
  replace (("checkstyle-" +:+ version +:+ "-all.jar") +:+ ".download")
    with (("checkstyle-" +:+ version) +:+ "-all.jar.download")
    by (now rewrite !append_assoc).
  apply path_join_suffix; [reflexivity | simpl; lia].
Qed.

Lemma finalPath_suffix (downloadPath version : string) :
  exists before : string, Server.finalPath downloadPath version = before +:+ "-all.jar".
Proof.
  unfold Server.finalPath, Server.checkstyleJar.
  replace ("checkstyle-" +:+ version +:+ "-all.jar")
    with (("checkstyle-" +:+ version) +:+ "-all.jar")
    by (now rewrite append_assoc).
  apply path_join_suffix; [reflexivity | simpl; lia].
Qed.

(** The temp path of a version is the final path of no version. *)
Lemma temp_never_final (downloadPath version other : string) :
  Server.tempFilePath downloadPath version ≠ Server.finalPath downloadPath other.
Proof.
  destruct (tempFilePath_suffix downloadPath version) as (t & ->).
  destruct (finalPath_suffix downloadPath other) as (f & ->).
  change "-all.jar.download" with ("-all.jar.downloa" +:+ "d").
  change "-all.jar" with ("-all.ja" +:+ "r").
  rewrite <- !append_assoc. intros Heq.
  apply append_last_char in Heq. discriminate Heq.
Qed.

Lemma temp_is_not_final (downloadPath version : string) :
  Server.tempFilePath downloadPath version ≠ Server.finalPath downloadPath version.
Proof. apply temp_never_final. Qed.

(** ** The probe *)

Section Probe.
Import Server.

Variable net : Network.
Variable url : string.

Lemma classify_found (r : ProbeReply) :
  classify r = Found <->
  exists resp, response r = Some resp /\ _error r = None /\ statusCode resp = 302.
Proof.
  unfold classify. split.
  - destruct (response r) as [resp|]; [|discriminate].
    destruct (_error r); [discriminate|].
    destruct (Z.eqb_spec (statusCode resp) 302); [|discriminate].
    intros _. now exists resp.
  - intros (resp & -> & -> & ->). reflexivity.
Qed.

Lemma classify_others (r : ProbeReply) :
  classify r = Others <->
  exists resp, response r = Some resp /\ _error r = None /\ statusCode resp ≠ 302.
Proof.
  unfold classify. split.
  - destruct (response r) as [resp|]; [|discriminate].
    destruct (_error r); [discriminate|].
    destruct (Z.eqb_spec (statusCode resp) 302); [discriminate|].
    intros _. now exists resp.
  - intros (resp & -> & -> & Hne).
    now destruct (Z.eqb_spec (statusCode resp) 302).
Qed.

Lemma classify_error (r : ProbeReply) :
  classify r = Error <-> response r = None \/ _error r ≠ None.
Proof.
  unfold classify. split.
  - destruct (response r) as [resp|]; [|now left].
    destruct (_error r); [now right|].
    now destruct (statusCode resp =? 302).
  - intros [-> | Herr]; [reflexivity|].
    destruct (response r); [|reflexivity].
    now destruct (_error r).
Qed.

(** C1. The probe of a download link has exactly one of three results,
    decided by what the callback receives: [Found] exactly when a response
    arrived without an error and its status code is 302; [Others] exactly
    when a response arrived without an error and its status code is any
    other; [Error] exactly when no response arrived or an error was
    reported. *)
Theorem requestForVersion_three_way :
  let reply := probe net url in
  (requestForVersion net url = Found <->
     exists resp, response reply = Some resp /\ _error reply = None /\
                  statusCode resp = 302) /\
  (requestForVersion net url = Others <->
     exists resp, response reply = Some resp /\ _error reply = None /\
                  statusCode resp ≠ 302) /\
  (requestForVersion net url = Error <->
     response reply = None \/ _error reply ≠ None).
Proof.
  unfold requestForVersion. cbv zeta.
  split; [apply classify_found | split; [apply classify_others | apply classify_error]].
Qed.

End Probe.

(** ** The stream handlers *)

Section Handlers.
Import Server.

Variables link tmp final : string.
Hypothesis tmp_final : tmp ≠ final.

Lemma runStream_app (pre post : list StreamEvent) (t : Transfer) :
  runStream link tmp final (pre ++ post) t =
  runStream link tmp final post (runStream link tmp final pre t).
Proof. apply fold_left_app. Qed.

Lemma runStream_cons (ev : StreamEvent) (evs : list StreamEvent) (t : Transfer) :
  runStream link tmp final (ev :: evs) t =
  runStream link tmp final evs (handleEvent link tmp final t ev).
Proof. reflexivity. Qed.

(** Ticks send one [downloading] status per progress event, append the
    chunks to the temp file and leave the promise alone. *)
Lemma runStream_ticks (ticks : list StreamEvent) :
  forall (t : Transfer) (c : string),
    Forall (fun ev => isTick ev = true) ticks ->
    files (world t) !! tmp = Some c ->
    let t' := runStream link tmp final ticks t in
    settled t' = settled t /\
    sent (world t') =
      (sent (world t)
         ++ map downloadingStatus (map toPercent (progressFractions ticks)))%list /\
    files (world t') = <[tmp := c +:+ body ticks]> (files (world t)).
Proof.
  induction ticks as [|ev ticks IH]; intros t c Hticks Htmp; cbv zeta.
  - simpl. rewrite app_nil_r, append_empty_r.
    split; [reflexivity | split; [reflexivity |]].
    symmetry. now apply insert_id.
  - apply Forall_cons in Hticks as [Hev Hticks].
    rewrite runStream_cons.
    destruct ev as [state | chunk | err |]; try discriminate; simpl handleEvent.
    + destruct (IH (onProgress state t) c Hticks Htmp) as (Hs & Hn & Hf).
      rewrite Hs, Hn, Hf. simpl. rewrite <- app_assoc.
      split; [reflexivity | split; reflexivity].
    + assert (Hw : files (world (onData tmp chunk t)) = <[tmp := c +:+ chunk]> (files (world t))).
      { simpl. unfold writeChunk. now rewrite Htmp. }
      assert (Htmp' : files (world (onData tmp chunk t)) !! tmp = Some (c +:+ chunk)).
      { rewrite Hw. apply lookup_insert_eq. }
      destruct (IH (onData tmp chunk t) (c +:+ chunk) Hticks Htmp') as (Hs & Hn & Hf).
      rewrite Hs, Hn, Hf, Hw. simpl body. rewrite append_assoc, insert_insert_eq.
      split; [reflexivity | split; reflexivity].
Qed.



(** A fulfilled promise stays as it is, whatever the stream still
    delivers. *)
Lemma runStream_fulfilled (evs : list StreamEvent) (b : bool) :
  forall t, settled t = Js.Fulfilled b ->
            settled (runStream link tmp final evs t) = Js.Fulfilled b.
Proof.
  induction evs as [|ev evs IH]; intros t Ht; [exact Ht|].
  rewrite runStream_cons. apply IH.
  destruct ev; simpl; unfold onEnd; try done.
  - now rewrite Ht.
  - destruct (rename tmp final (files (world t))); [|done].
    simpl. now rewrite Ht.
Qed.

Lemma handleEvent_promoted (t : Transfer) (ev : StreamEvent) :
  promoted tmp final t -> promoted tmp final (handleEvent link tmp final t ev).
Proof using tmp_final.
  unfold promoted. intros Ht.
  destruct ev as [state | chunk | err |]; simpl.
  - rewrite last_snoc. discriminate.
  - intros Hlast. destruct (Ht Hlast) as [Hnone Hfinal].
    unfold writeChunk. now rewrite Hnone.
  - rewrite last_snoc. discriminate.
  - unfold onEnd, rename.
    destruct (files (world t) !! tmp) as [c|] eqn:Htmp.
    2: { intros Hlast. split; [exact Htmp | exact (proj2 (Ht Hlast))]. }
    simpl. intros _. split.
    + rewrite lookup_insert_ne by (intros Heq; now apply tmp_final).
      apply lookup_delete_eq.
    + exists c. apply lookup_insert_eq.
Qed.

Lemma runStream_promoted (evs : list StreamEvent) :
  forall t, promoted tmp final t -> promoted tmp final (runStream link tmp final evs t).
Proof using tmp_final.
  induction evs as [|ev evs IH]; intros t Ht; [exact Ht|].
  rewrite runStream_cons. apply IH. now apply handleEvent_promoted.
Qed.



End Handlers.

Lemma toPercent_sorted (fractions : list Q) :
  Sorted Qle fractions -> Sorted Z.le (map Server.toPercent fractions).
Proof.
  induction 1 as [|q rest Hsorted IH Hhd]; simpl; constructor.
  - exact IH.
  - destruct Hhd as [|q' rest' Hle]; simpl; constructor.
    now apply toPercent_mono.
Qed.

Lemma toPercent_nearest (fractions : list Q) :
  Forall2
    (fun q p => (inject_Z p - (1 # 2) <= Js.times q 100)%Q /\
                (Js.times q 100 < inject_Z p + (1 # 2))%Q)
    fractions (map Server.toPercent fractions).
Proof.
  induction fractions as [|q rest IH]; simpl; constructor; [|exact IH].
  apply Math_round_nearest.
Qed.

Lemma toPercent_in_range (fractions : list Q) :
  Forall (fun q => (0 <= q)%Q /\ (q <= 1)%Q) fractions ->
  Forall (fun p => 0 <= p <= 100) (map Server.toPercent fractions).
Proof.
  intros Hall. apply Forall_map. eapply Forall_impl; [exact Hall|].
  intros q [H0 H1]. now apply toPercent_bounds.
Qed.

(** ** downloadCheckstyle *)

Section Download.
Import Server.

Variable net : Network.
Variable connection : World.
Variables downloadPath version textDocumentUri : string.

Let link := downloadLink version.
Let tmp := tempFilePath downloadPath version.
Let final := finalPath downloadPath version.
Let result := downloadCheckstyle net connection downloadPath version textDocumentUri.

(** The world in which streaming begins: the one left by the probe, with a
    stale temp file removed. *)
Let cleaned := removeStaleTemp tmp connection.

Lemma removeStaleTemp_clears (p : string) (w : World) :
  files (removeStaleTemp p w) !! p = None /\
  sent (removeStaleTemp p w) = sent w /\
  files (removeStaleTemp p w) = delete p (files w).
Proof.
  unfold removeStaleTemp, pathExists, remove.
  destruct (files w !! p) eqn:Hp; simpl.
  - split; [apply lookup_delete_eq | split; reflexivity].
  - split; [exact Hp | split; [reflexivity |]].
    symmetry. now apply delete_id.
Qed.

Lemma downloadCheckstyle_found :
  requestForVersion net link = Found ->
  result =
    (let t := runStream link tmp final (stream net link) (startTransfer tmp cleaned) in
     (world t, settled t)).
Proof.
  unfold result, downloadCheckstyle. fold link. intros ->. reflexivity.
Qed.

Lemma downloadCheckstyle_not_found :
  requestForVersion net link ≠ Found ->
  result =
    (fst (probeSwitch (ResponseType_value (requestForVersion net link))
            textDocumentUri connection),
     Js.Fulfilled false).
Proof.
  unfold result, downloadCheckstyle. fold link.
  destruct (requestForVersion net link); [congruence | reflexivity | reflexivity].
Qed.

(** The state of a transfer after the ticks of a stream. *)
Lemma transfer_after_ticks (ticks : list StreamEvent) :
  Forall (fun ev => isTick ev = true) ticks ->
  let t := runStream link tmp final ticks (startTransfer tmp cleaned) in
  settled t = Js.Pending /\
  sent (world t) =
    (sent connection ++ [DownloadStartNotification]
       ++ map downloadingStatus (map toPercent (progressFractions ticks)))%list /\
  files (world t) = <[tmp := body ticks]> (files connection).
Proof.
  intros Hticks.
  assert (Hstart : files (world (startTransfer tmp cleaned)) !! tmp = Some "").
  { simpl. unfold createWriteStream. apply lookup_insert_eq. }
  destruct (runStream_ticks link tmp final ticks _ "" Hticks Hstart) as (Hs & Hn & Hf).
  destruct (removeStaleTemp_clears tmp connection) as (_ & Hsent & Hfiles).
  cbv zeta. rewrite Hs, Hn, Hf. simpl. unfold createWriteStream.
  fold cleaned in Hsent, Hfiles. rewrite Hsent, Hfiles.
  rewrite insert_insert_eq, insert_delete_eq, <- app_assoc.
  split; [reflexivity | split; reflexivity].
Qed.

(** C2. When the probe does not return [Found], downloadCheckstyle returns
    [false] and sends exactly one notification, which is not
    [DownloadStart]: [VersionInvalid] with the uri of the requesting
    document after an [Others] probe, the try-again-later message after an
    [Error] probe. No file is touched. *)
Theorem downloadCheckstyle_probe_failed :
  requestForVersion net link ≠ Found ->
  snd result = Js.Fulfilled false /\
  files (fst result) = files connection /\
  (requestForVersion net link = Others ->
     sent (fst result) = (sent connection ++ [VersionInvalidNotification textDocumentUri])%list) /\
  (requestForVersion net link = Error ->
     sent (fst result) =
       (sent connection
          ++ [ShowMessageNotification MsgError
                "Failed to download CheckStyle, please try again later."])%list) /\
  (exists n, sent (fst result) = (sent connection ++ [n])%list /\
             n ≠ DownloadStartNotification).
Proof.
  intros Hprobe. rewrite (downloadCheckstyle_not_found Hprobe).
  destruct (requestForVersion net link) eqn:Hr; [congruence | |]; simpl.
  - repeat split; try reflexivity; try discriminate. eexists. split; [reflexivity | discriminate].
  - repeat split; try reflexivity; try discriminate. eexists. split; [reflexivity | discriminate].
Qed.

Lemma transfer_after_end (ticks : list StreamEvent) :
  Forall (fun ev => isTick ev = true) ticks ->
  let t := runStream link tmp final (ticks ++ [EvEnd]) (startTransfer tmp cleaned) in
  settled t = Js.Fulfilled true /\
  sent (world t) =
    (sent connection ++ [DownloadStartNotification]
       ++ map downloadingStatus (map toPercent (progressFractions ticks))
       ++ [finishedStatus])%list /\
  files (world t) = <[final := body ticks]> (delete tmp (files connection)).
Proof.
  intros Hticks. destruct (transfer_after_ticks ticks Hticks) as (Hs & Hn & Hf).
  cbv zeta in *. rewrite runStream_app. simpl. unfold onEnd, rename.
  rewrite Hf, lookup_insert_eq. simpl. rewrite Hs, Hn, delete_insert_eq.
  rewrite <- !app_assoc. split; [reflexivity | split; reflexivity].
Qed.

Lemma transfer_after_error (ticks : list StreamEvent) (err : Js.Error) :
  Forall (fun ev => isTick ev = true) ticks ->
  let t := runStream link tmp final (ticks ++ [EvError err]) (startTransfer tmp cleaned) in
  settled t = Js.Fulfilled false /\
  sent (world t) =
    (sent connection ++ [DownloadStartNotification]
       ++ map downloadingStatus (map toPercent (progressFractions ticks))
       ++ [errorStatus
             (DownloadCheckstyleError ("Download Checkstyle fail: " +:+ errorCause err))
             link])%list /\
  files (world t) = <[tmp := body ticks]> (files connection).
Proof.
  intros Hticks. destruct (transfer_after_ticks ticks Hticks) as (Hs & Hn & Hf).
  cbv zeta in *. rewrite runStream_app. simpl. rewrite Hs, Hn, Hf.
  rewrite <- !app_assoc. split; [reflexivity | split; reflexivity].
Qed.

(** C3. When the probe returns [Found]: no file is at the temp path when
    streaming begins, and the write stream starts it from byte zero; the
    [end] handler sends [finished] only after a successful rename of the
    temp file to the final path; at every moment of the transfer at which
    the notification sent last is [finished], the temp path is free and the
    artifact is at its final path; and a stream that ends after its ticks
    leaves the streamed body, and nothing else, at the final path. *)
Theorem temp_file_promoted :
  requestForVersion net link = Found ->
  files cleaned !! tmp = None /\
  files (world (startTransfer tmp cleaned)) !! tmp = Some "" /\
  result =
    (let t := runStream link tmp final (stream net link) (startTransfer tmp cleaned) in
     (world t, settled t)) /\
  (forall (t : Transfer) (c : string),
      files (world t) !! tmp = Some c ->
      files (world (onEnd tmp final t)) = <[final := c]> (delete tmp (files (world t))) /\
      sent (world (onEnd tmp final t)) = (sent (world t) ++ [finishedStatus])%list) /\
  (forall t : Transfer, files (world t) !! tmp = None -> onEnd tmp final t = t) /\
  (forall pre post : list StreamEvent,
      stream net link = (pre ++ post)%list ->
      promoted tmp final (runStream link tmp final pre (startTransfer tmp cleaned))) /\
  (forall ticks : list StreamEvent,
      stream net link = (ticks ++ [EvEnd])%list ->
      Forall (fun ev => isTick ev = true) ticks ->
      last (sent (fst result)) = Some finishedStatus /\
      files (fst result) !! tmp = None /\
      files (fst result) !! final = Some (body ticks)).
Proof.
  intros Hprobe. pose proof (temp_is_not_final downloadPath version) as Hne.
  fold tmp final in Hne.
  split; [apply removeStaleTemp_clears|].
  split; [simpl; unfold createWriteStream; apply lookup_insert_eq|].
  split; [now apply downloadCheckstyle_found|].
  split; [|split; [|split]].
  - intros t c Hc. unfold onEnd, rename. rewrite Hc. split; reflexivity.
  - intros t Hnone. unfold onEnd, rename. now rewrite Hnone.
  - intros pre post _. apply runStream_promoted; [exact Hne|].
    unfold promoted. simpl. rewrite last_snoc. discriminate.
  - intros ticks Hstream Hticks.
    rewrite (downloadCheckstyle_found Hprobe), Hstream.
    destruct (transfer_after_end ticks Hticks) as (_ & Hn & Hf).
    cbv zeta in *. simpl fst. rewrite Hn, Hf, !app_assoc, last_snoc.
    split; [reflexivity|]. split.
    + rewrite lookup_insert_ne by (intros Heq; now apply Hne).
      apply lookup_delete_eq.
    + apply lookup_insert_eq.
Qed.


(** C5, as the code has it. When the probe returns [Found] and the stream
    delivers its ticks and then exactly one terminal event, the
    notifications of the call are, in order: one [DownloadStart]; one
    [DownloadStatus] with status [downloading] per progress tick, whose
    percent is [Math.round] of the double product of the fraction of the
    tick and 100, the nearest integer to that product; one terminal
    [DownloadStatus], which is [finished] (and the call returns [true])
    when the stream ended and [error] (and the call returns [false]) when
    it failed. The percents lie between 0 and 100 when the fractions lie
    between 0 and 1, and are non-decreasing when the fractions are. *)
Theorem download_notification_sequence (ticks : list StreamEvent) (last_event : StreamEvent) :
  requestForVersion net link = Found ->
  stream net link = (ticks ++ [last_event])%list ->
  Forall (fun ev => isTick ev = true) ticks ->
  isTerminalEvent last_event = true ->
  let fractions := progressFractions ticks in
  let percents := map (fun q => Js.Math_round (Js.times q 100)) fractions in
  (exists terminal : IDownloadParams,
      sent (fst result) =
        (sent connection ++ [DownloadStartNotification]
           ++ map (fun pct =>
                     DownloadStatusNotification
                       (Build_IDownloadParams DownloadStatus.downloading (Some pct) None None))
                percents
           ++ [DownloadStatusNotification terminal])%list /\
      ((last_event = EvEnd /\
        terminal = Build_IDownloadParams DownloadStatus.finished None None None /\
        snd result = Js.Fulfilled true) \/
       (exists err, last_event = EvError err /\
          terminal =
            Build_IDownloadParams DownloadStatus.error None
              (Some (DownloadCheckstyleError
                       ("Download Checkstyle fail: " +:+ errorCause err)))
              (Some link) /\
          snd result = Js.Fulfilled false))) /\
  Forall2
    (fun q pct => (inject_Z pct - (1 # 2) <= Js.times q 100)%Q /\
                  (Js.times q 100 < inject_Z pct + (1 # 2))%Q)
    fractions percents /\
  (Forall (fun q => (0 <= q)%Q /\ (q <= 1)%Q) fractions ->
   Forall (fun pct => 0 <= pct <= 100) percents) /\
  (Sorted Qle fractions -> Sorted Z.le percents).
Proof.
  intros Hprobe Hstream Hticks Hlast. cbv zeta.
  split; [|split; [apply toPercent_nearest | split;
    [apply toPercent_in_range | apply toPercent_sorted]]].
  rewrite (downloadCheckstyle_found Hprobe), Hstream. cbv zeta. simpl fst. simpl snd.
  destruct last_event as [state | chunk | err |]; try discriminate.
  - destruct (transfer_after_error ticks err Hticks) as (Hs & Hn & _).
    cbv zeta in *. eexists. split; [exact Hn|]. right. exists err. auto.
  - destruct (transfer_after_end ticks Hticks) as (Hs & Hn & _).
    cbv zeta in *. eexists. split; [exact Hn|]. left. auto.
Qed.

Lemma runStreamIO_effective (faults : Faults) (evs : list StreamEvent) :
  forall t : Transfer,
    runStreamIO faults link tmp final evs t =
    runStream link tmp final (effective faults evs) t.
Proof.
  unfold effective, runStreamIO, runStream.
  destruct (renameError faults) as [e|] eqn:Hrename.
  - induction evs as [|ev evs IH]; intros t; [reflexivity|].
    simpl. destruct ev; simpl; try apply IH.
    unfold onEndIO. rewrite Hrename. apply IH.
  - induction evs as [|ev evs IH]; intros t; [reflexivity|].
    simpl. rewrite <- IH. destruct ev; try reflexivity.
    simpl. unfold onEndIO. now rewrite Hrename.
Qed.

(** Without failures the function is the one of the flat file system. *)
Lemma downloadCheckstyleIO_noFaults :
  downloadCheckstyleIO noFaults net connection downloadPath version textDocumentUri = result.
Proof.
  unfold result, downloadCheckstyleIO, downloadCheckstyle.
  destruct (probeSwitch _ _ _) as [w [b|]]; [reflexivity|].
  simpl removeError. destruct (pathExists _ _); now rewrite runStreamIO_effective.
Qed.





End Download.

(** ** The download on concrete hosts *)

Section Runs.
Import Server Scenario.

Lemma goodTicks_are_ticks : Forall (fun ev => isTick ev = true) goodTicks.
Proof. repeat constructor. Qed.

Lemma resetTicks_are_ticks : Forall (fun ev => isTick ev = true) resetTicks.
Proof. repeat constructor. Qed.

(** Version 999.0: the host answers 200, the controller is told that the
    version is invalid and nothing is downloaded. *)
Lemma downloadCheckstyle_probe_failed_witness :
  snd invalidRun = Js.Fulfilled false /\
  sent (fst invalidRun) = [VersionInvalidNotification mainJava] /\
  files (fst invalidRun) = files staleWorld.
Proof.
  assert (Hprobe : requestForVersion noSuchVersion (downloadLink "999.0") ≠ Found)
    by discriminate.
  destruct (downloadCheckstyle_probe_failed noSuchVersion staleWorld "/res" "999.0" mainJava Hprobe)
    as (Hret & Hfiles & Hinvalid & _ & _).
  split; [exact Hret | split; [exact (Hinvalid eq_refl) | exact Hfiles]].
Defined.

(** Version 8.0 with a stale temp file: after the download the temp path is
    free and the jar holds the streamed body only. *)
Lemma temp_file_promoted_witness :
  files staleWorld !! "/res/checkstyle-8.0-all.jar.download" = Some "stale" /\
  last (sent (fst goodRun)) = Some finishedStatus /\
  files (fst goodRun) !! "/res/checkstyle-8.0-all.jar.download" = None /\
  files (fst goodRun) !! "/res/checkstyle-8.0-all.jar" = Some "PK34".
Proof.
  destruct (temp_file_promoted goodHost staleWorld "/res" "8.0" mainJava eq_refl)
    as (_ & _ & _ & _ & _ & _ & Hcomplete).
  destruct (Hcomplete goodTicks eq_refl goodTicks_are_ticks) as (Hlast & Htmp & Hfinal).
  split; [reflexivity | split; [exact Hlast | split; [exact Htmp | exact Hfinal]]].
Defined.


(** The handlers keep no state: when the stream reports an error and ends
    afterwards, the log holds two terminal statuses, [error] and
    [finished]. The percent is what the stream reports, times 100: the
    fractions 1.5 and 0.25 give 150 and then 25. And the percent is rounded
    from the double product: for the double nearest to 0.075 the product is
    7.5 and the percent 8, while a hundred times the fraction is below
    7.5. *)
Lemma two_terminal_statuses :
  sent (fst (downloadCheckstyle Cases.errorThenEnd staleWorld "/res" "8.0" mainJava)) =
    [ DownloadStartNotification;
      DownloadStatusNotification
        (Build_IDownloadParams DownloadStatus.downloading (Some 25) None None);
      DownloadStatusNotification
        (Build_IDownloadParams DownloadStatus.error None
           (Some (DownloadCheckstyleError "Download Checkstyle fail: ECONNRESET"))
           (Some "https://sourceforge.net/projects/checkstyle/files/checkstyle/8.0/checkstyle-8.0-all.jar/download"));
      DownloadStatusNotification
        (Build_IDownloadParams DownloadStatus.finished None None None) ] /\
  sent (fst (downloadCheckstyle Cases.overshooting staleWorld "/res" "8.0" mainJava)) =
    [ DownloadStartNotification;
      DownloadStatusNotification
        (Build_IDownloadParams DownloadStatus.downloading (Some 150) None None);
      DownloadStatusNotification
        (Build_IDownloadParams DownloadStatus.downloading (Some 25) None None);
      DownloadStatusNotification
        (Build_IDownloadParams DownloadStatus.finished None None None) ] /\
  Js.Math_round (Js.times (Js.toDouble (3 # 40)) 100) = 8 /\
  (Js.toDouble (3 # 40) * 100 < 15 # 2)%Q.
Proof.
  split; [vm_compute; reflexivity|]. split; [vm_compute; reflexivity|].
  split; vm_compute; reflexivity.
Qed.

(** Progress at 10, 50 and 100 percent, then the end. *)
Lemma download_notification_sequence_witness :
  sent (fst goodRun) =
    [ DownloadStartNotification;
      DownloadStatusNotification
        (Build_IDownloadParams DownloadStatus.downloading (Some 10) None None);
      DownloadStatusNotification
        (Build_IDownloadParams DownloadStatus.downloading (Some 50) None None);
      DownloadStatusNotification
        (Build_IDownloadParams DownloadStatus.downloading (Some 100) None None);
      DownloadStatusNotification
        (Build_IDownloadParams DownloadStatus.finished None None None) ] /\
  snd goodRun = Js.Fulfilled true /\
  Forall (fun pct => 0 <= pct <= 100) [10; 50; 100] /\
  Sorted Z.le [10; 50; 100].
Proof.
  assert (Hrange : Forall (fun q => (0 <= q)%Q /\ (q <= 1)%Q) (progressFractions goodTicks)).
  { repeat (constructor; [split; vm_compute; discriminate|]). constructor. }
  assert (Hsorted : Sorted Qle (progressFractions goodTicks)).
  { repeat constructor; vm_compute; discriminate. }
  destruct (download_notification_sequence goodHost staleWorld "/res" "8.0" mainJava
              goodTicks EvEnd eq_refl eq_refl goodTicks_are_ticks eq_refl)
    as ((terminal & Hsent & [(_ & Hterm & Hret) | (err & Herr & _)])
        & _ & Hbounded & Hmonotone);
    [|discriminate Herr].
  rewrite Hterm in Hsent.
  split; [exact Hsent | split; [exact Hret | split;
    [exact (Hbounded Hrange) | exact (Hmonotone Hsorted)]]].
Defined.



End Runs.

(** ** The configuration middleware *)

Lemma truthy_true (v : option string) :
  Js.truthy v = true <-> exists s, v = Some s /\ s ≠ "".
Proof.
  unfold Js.truthy. split.
  - destruct v as [s|]; [|discriminate].
    destruct (String.eqb_spec s ""); [discriminate|]. intros _. now exists s.
  - intros (s & -> & Hne). now destruct (String.eqb_spec s "").
Qed.

Lemma truthy_false (v : option string) :
  Js.truthy v = false <-> v = None \/ v = Some "".
Proof.
  unfold Js.truthy. split.
  - destruct v as [s|]; [|now left].
    destruct (String.eqb_spec s ""); [subst; now right | discriminate].
  - now intros [-> | ->].
Qed.

Section Configuration.
Import Client.

Variable ws : Workspace.

(** The loop pushes the entry of each item, in order. *)
Lemma push_loop (its : list ConfigurationItem) :
  forall acc : list (option ICheckStyleSettings),
    fold_left (fun result item => (result ++ [resolveItem ws item])%list) its acc =
    (acc ++ map (resolveItem ws) its)%list.
Proof.
  induction its as [|item its IH]; intros acc; simpl.
  - now rewrite app_nil_r.
  - rewrite IH, <- app_assoc. reflexivity.
Qed.

Lemma computeConfiguration_items (its : list ConfigurationItem) (params : ConfigurationParams) :
  items params = Some its ->
  computeConfiguration ws params = Some (map (resolveItem ws) its).
Proof.
  intros Hits. unfold computeConfiguration. rewrite Hits, push_loop. reflexivity.
Qed.

(** C7. computeConfiguration returns [null] exactly when the query carries
    no [items]; otherwise it returns as many entries as there are items, in
    the order of the items: [null] for an item with a non-empty section,
    whatever its scopeUri, and a settings record for every other item. *)
Theorem computeConfiguration_entries (params : ConfigurationParams) :
  (computeConfiguration ws params = None <-> items params = None) /\
  (forall result : list (option ICheckStyleSettings),
      computeConfiguration ws params = Some result ->
      exists its : list ConfigurationItem,
        items params = Some its /\
        length result = length its /\
        forall (i : nat) (item : ConfigurationItem),
          its !! i = Some item ->
          (forall s : string, section item = Some s -> s ≠ "" -> result !! i = Some None) /\
          (section item = None \/ section item = Some "" ->
             exists settings : ICheckStyleSettings, result !! i = Some (Some settings))).
Proof.
  split.
  - unfold computeConfiguration. now destruct (items params).
  - intros result Hresult. destruct (items params) as [its|] eqn:Hits.
    2: { unfold computeConfiguration in Hresult. now rewrite Hits in Hresult. }
    rewrite (computeConfiguration_items its params Hits) in Hresult.
    injection Hresult as <-. exists its.
    split; [reflexivity | split; [apply length_map|]].
    intros i item Hitem.
    assert (Hentry : map (resolveItem ws) its !! i = Some (resolveItem ws item)).
    { change (map (resolveItem ws) its) with (resolveItem ws <$> its).
      now rewrite list_lookup_fmap, Hitem. }
    rewrite Hentry. unfold resolveItem. split.
    + intros s Hs Hne.
      assert (Ht : Js.truthy (section item) = true) by (apply truthy_true; eauto).
      now rewrite Ht.
    + intros Hsec. apply truthy_false in Hsec. rewrite Hsec. eauto.
Qed.

(** C8. For an item without a section (none, or an empty one) the entry is
    a settings record read from one configuration: the one of the item's
    scopeUri when that is present and not empty, the one of the workspace
    otherwise. Each of autocheck, version and configurationFile is the
    stored value, or [false], ["8.0"] and ["google_checks"] when nothing is
    stored; propertiesPath is the stored value or absent. *)
Theorem computeConfiguration_settings (params : ConfigurationParams)
  (its : list ConfigurationItem) (i : nat) (item : ConfigurationItem) :
  items params = Some its ->
  its !! i = Some item ->
  section item = None \/ section item = Some "" ->
  exists (result : list (option ICheckStyleSettings)) (settings : ICheckStyleSettings)
         (config : WorkspaceConfiguration),
    computeConfiguration ws params = Some result /\
    result !! i = Some (Some settings) /\
    ((exists u : string,
         scopeUri item = Some u /\ u ≠ "" /\
         config = getConfiguration ws "checkstyle" (Some (asUri ws u))) \/
     ((scopeUri item = None \/ scopeUri item = Some "") /\
      config = getConfiguration ws "checkstyle" None)) /\
    autocheck settings = default false (stored_autocheck config) /\
    version settings = default "8.0" (stored_version config) /\
    configurationFile settings = default "google_checks" (stored_configurationFile config) /\
    propertiesPath settings = stored_propertiesPath config.
Proof.
  intros Hits Hitem Hsec. apply truthy_false in Hsec.
  assert (Hentry : map (resolveItem ws) its !! i = Some (resolveItem ws item)).
  { change (map (resolveItem ws) its) with (resolveItem ws <$> its).
    now rewrite list_lookup_fmap, Hitem. }
  unfold resolveItem in Hentry. rewrite Hsec in Hentry.
  eexists _, _, _. split; [exact (computeConfiguration_items its params Hits)|].
  split; [exact Hentry|]. simpl.
  split; [|repeat split; match goal with |- get ?o _ = _ => now destruct o end].
  destruct (scopeUri item) as [u|] eqn:Hscope.
  - destruct (Js.truthy (Some u)) eqn:Hu.
    + left. exists u. apply truthy_true in Hu as (u' & [= <-] & Hne). auto.
    + right. apply truthy_false in Hu. auto.
  - right. auto.
Qed.

End Configuration.

Section ConfigurationRuns.
Import Client Scenario.

(** Three items: a named section, a resource and the workspace. *)
Lemma computeConfiguration_entries_witness :
  exists with_scope global : ICheckStyleSettings,
    computeConfiguration plainWorkspace query = Some [None; Some with_scope; Some global].
Proof.
  destruct (computeConfiguration_entries plainWorkspace query) as [_ Hshape].
  destruct (Hshape _ eq_refl) as (its & Hits & Hlen & Hentries).
  injection Hits as <-.
  destruct (Hentries 1%nat _ eq_refl) as [_ Hsecond].
  destruct (Hentries 2%nat _ eq_refl) as [_ Hthird].
  destruct (Hsecond (or_introl eq_refl)) as (with_scope & _).
  destruct (Hthird (or_introl eq_refl)) as (global & _).
  eexists _, _. reflexivity.
Defined.

(** The settings of a resource that stores some values, and the defaults of
    a workspace that stores none. *)
Lemma computeConfiguration_settings_witness :
  computeConfiguration plainWorkspace query =
    Some [ None;
           Some {| autocheck := true; version := "8.9";
                   configurationFile := "google_checks";
                   propertiesPath := Some "/ws/checkstyle.properties" |};
           Some {| autocheck := false; version := "8.0";
                   configurationFile := "google_checks";
                   propertiesPath := None |} ].
Proof.
  destruct (computeConfiguration_settings plainWorkspace query _ 2%nat _
              eq_refl eq_refl (or_introl eq_refl))
    as (result & settings & config & Hresult & _).
  rewrite Hresult. injection Hresult as <-. reflexivity.
Defined.

End ConfigurationRuns.

(** ** The command wrapper *)

Section Commands.
Import Client.

Variable commands : gmap string (Window -> Window).
Variable commandId : string.
Variable callback : Callback.

Lemma executeCommand_registered (w : Window) :
  executeCommand (initCommand commandId callback commands) commandId w =
  wrapped callback w.
Proof.
  unfold executeCommand, initCommand. now rewrite lookup_insert_eq.
Qed.

(** C9. When the callback of a registered command throws, the wrapper
    tells two cases apart. The user-cancelled sentinel is swallowed: the
    window is as the callback left it. Any other error is appended to the
    output channel and shown as an error message, both times as
    ["Checkstyle Error: - '<text>'"], where the text is the message of the
    error when that is a string and the string form of the error
    otherwise. *)
Theorem command_error_policy (w w1 : Window) (error : Js.Error) :
  callback w = (w1, Throws error) ->
  let after := executeCommand (initCommand commandId callback commands) commandId w in
  (Js.isUserCancelled error = true -> after = w1) /\
  (Js.isUserCancelled error = false ->
     exists text : string,
       (forall m : string, Js.message error = Some m -> text = m) /\
       (Js.message error = None -> text = Js.toString error) /\
       outputChannel after =
         (outputChannel w1 ++ ["Checkstyle Error: - '" +:+ text +:+ "'"])%list /\
       errorMessages after =
         (errorMessages w1 ++ ["Checkstyle Error: - '" +:+ text +:+ "'"])%list /\
       warningMessages after = warningMessages w1).
Proof.
  intros Hthrows. cbv zeta. rewrite executeCommand_registered.
  unfold wrapped. rewrite Hthrows. split.
  - now intros ->.
  - intros ->. unfold getErrorMessage.
    destruct (Js.message error) as [m|]; eexists; simpl;
      (split; [| split; [| split; [reflexivity | split; reflexivity]]]);
      congruence.
Qed.

End Commands.

Section CommandRuns.
Import Client Scenario.

(** A cancelled picker leaves no trace; a timeout is logged and shown. *)
Lemma command_error_policy_witness :
  executeCommand (initCommand "checkstyle.setVersion" cancelling ∅)
    "checkstyle.setVersion" emptyWindow = emptyWindow /\
  executeCommand (initCommand "checkstyle.setVersion" failing ∅)
    "checkstyle.setVersion" emptyWindow =
    {| outputChannel := ["Checkstyle Error: - 'ETIMEDOUT'"];
       errorMessages := ["Checkstyle Error: - 'ETIMEDOUT'"];
       warningMessages := [] |}.
Proof.
  destruct (command_error_policy ∅ "checkstyle.setVersion" cancelling
              emptyWindow emptyWindow cancelled eq_refl) as [Hsilent _].
  destruct (command_error_policy ∅ "checkstyle.setVersion" failing
              emptyWindow emptyWindow timedOut eq_refl) as [_ Hvisible].
  split; [exact (Hsilent eq_refl)|].
  destruct (Hvisible eq_refl) as (text & Hmessage & _ & Hlog & Hshown & Hwarn).
  rewrite (Hmessage _ eq_refl) in Hlog, Hshown.
  destruct (executeCommand _ _ _) as [log shown warned].
  simpl in Hlog, Hshown, Hwarn. now subst.
Defined.

End CommandRuns.

(** ** The download listeners of the controller *)

Section Listeners.
Import Client.

Variable c : Controller.
Variable task : nat.
Hypothesis listening :
  notificationHandlers c !! downloadStatusMethod = Some (OnDownloadStatus task).

Lemma receive_status (param : IDownloadParams) :
  receive c (DownloadStatusNotification param) = onDownloadStatus task param c.
Proof using listening.
  unfold receive. simpl method. fold downloadStatusMethod.
  now rewrite listening.
Qed.

Lemma onDownloadStatus_handlers (k : nat) (param : IDownloadParams) (c0 : Controller) :
  notificationHandlers (onDownloadStatus k param c0) = notificationHandlers c0.
Proof.
  unfold onDownloadStatus.
  destruct (downloadStatus param); [reflexivity | reflexivity |].
  now destruct (error param).
Qed.

(** C6, as the code has it. A terminal status settles the progress task of
    the listener that receives it: [finished] resolves its promise; [error]
    shows a warning and rejects it. The listener itself stays registered
    for [checkstyle/downloadStatus]; it is replaced, by the listener of a
    new progress task, when the next [DownloadStart] arrives. *)
Theorem terminal_status_keeps_listener (param : IDownloadParams) :
  isTerminal param = true ->
  let after := receive c (DownloadStatusNotification param) in
  notificationHandlers after = notificationHandlers c /\
  ~ detached after /\
  (forall p : ProgressTask,
      progress c !! task = Some p ->
      (downloadStatus param = DownloadStatus.finished ->
         exists p', progress after !! task = Some p' /\
                    reported p' = reported p /\
                    outcome p' = Js.resolve tt (outcome p)) /\
      (forall e : Js.Error,
          downloadStatus param = DownloadStatus.error ->
          error param = Some e ->
          warningMessages (window after) =
            (warningMessages (window c) ++ [getErrorMessage e])%list /\
          exists p', progress after !! task = Some p' /\
                     reported p' = reported p /\
                     outcome p' = Js.reject e (outcome p))) /\
  (notificationHandlers c !! "checkstyle/downloadStart" = Some OnDownloadStart ->
   notificationHandlers (receive after DownloadStartNotification) !! downloadStatusMethod =
     Some (OnDownloadStatus (length (progress after)))).
Proof using listening.
  intros Hterminal. cbv zeta. rewrite receive_status.
  pose proof (onDownloadStatus_handlers task param c) as Hsame.
  split; [exact Hsame|]. split.
  { unfold detached. rewrite Hsame, listening. discriminate. }
  split.
  - intros p Hp. unfold onDownloadStatus. split.
    + intros ->. exists (settle (Js.resolve tt) p). simpl.
      rewrite list_lookup_alter_eq, Hp. auto.
    + intros e -> ->. simpl. split; [reflexivity|].
      exists (settle (Js.reject e) p).
      rewrite list_lookup_alter_eq, Hp. auto.
  - intros Hstart. unfold receive at 1. simpl method.
    rewrite Hsame, Hstart. simpl. apply lookup_insert_eq.
Qed.

End Listeners.

Section ListenerRuns.
Import Client Scenario.

(** After [DownloadStart] and [finished] the progress task is resolved and
    its listener is still the one registered. *)
Lemma listener_survives_finished :
  progress afterFinished =
    [{| reported := ["Fetching the download link..."]; outcome := Js.Fulfilled tt |}] /\
  ~ detached afterFinished.
Proof.
  split; [reflexivity|]. unfold detached. vm_compute. discriminate.
Qed.

Lemma terminal_status_keeps_listener_witness :
  notificationHandlers afterFinished !! downloadStatusMethod = Some (OnDownloadStatus 0) /\
  notificationHandlers (receive afterFinished DownloadStartNotification)
    !! downloadStatusMethod = Some (OnDownloadStatus 1).
Proof.
  destruct (terminal_status_keeps_listener
              (receive freshController DownloadStartNotification) 0%nat eq_refl
              {| downloadStatus := DownloadStatus.finished; percent := None;
                 error := None; downloadLink := None |} eq_refl)
    as (Hsame & _ & _ & Hnext).
  split; [|exact (Hnext eq_refl)].
  change afterFinished with
    (receive (receive freshController DownloadStartNotification) finishedStatus).
  unfold finishedStatus. rewrite Hsame. reflexivity.
Defined.

End ListenerRuns.

(** ** File names and links *)

Lemma append_prefix (a b x y : string) :
  a +:+ x = b +:+ y -> String.length a = String.length b -> a = b /\ x = y.
Proof.
  revert b. induction a as [|ch a IH]; intros [|ch' b] Heq Hlen;
    try discriminate Hlen.
  - split; [reflexivity | exact Heq].
  - rewrite !append_cons in Heq. injection Heq as -> Heq.
    injection Hlen as Hlen. destruct (IH b Heq Hlen) as [-> ->]. now split.
Qed.

Section Names.
Import Server.

(** X1. Versions do not collide: two versions with the same jar name or
    the same download link are the same version; the name of the temp file
    of a version is the jar name of no version, and its temp path, as
    [path.join] normalises it, is the final path of no version in that
    directory. *)
Theorem versions_do_not_collide (downloadPath v1 v2 : string) :
  (checkstyleJar v1 = checkstyleJar v2 -> v1 = v2) /\
  (downloadLink v1 = downloadLink v2 -> v1 = v2) /\
  checkstyleJar v1 +:+ ".download" ≠ checkstyleJar v2 /\
  tempFilePath downloadPath v1 ≠ finalPath downloadPath v2.
Proof.
  split; [|split; [|split]].
  - unfold checkstyleJar. intros Heq.
    apply append_prefix in Heq as [_ Heq]; [|reflexivity].
    pose proof (f_equal String.length Heq) as Hlen.
    rewrite !append_length in Hlen.
    apply append_prefix in Heq as [Heq _]; [exact Heq | lia].
  - unfold downloadLink, checkstyleJar. intros Heq.
    apply append_prefix in Heq as [_ Heq]; [|reflexivity].
    pose proof (f_equal String.length Heq) as Hlen.
    rewrite !append_length in Hlen. simpl in Hlen.
    apply append_prefix in Heq as [Heq _]; [exact Heq | lia].
  - unfold checkstyleJar. intros Heq.
    change ".download" with (".downloa" +:+ "d") in Heq.
    change "-all.jar" with ("-all.ja" +:+ "r") in Heq at 2.
    rewrite <- !append_assoc in Heq.
    apply append_last_char in Heq. discriminate Heq.
  - apply temp_never_final.
Qed.

(** The final path does not tell the version: [path.join] resolves the
    [..] of a version. *)
Lemma final_path_shared :
  finalPath "/res" "x/../checkstyle-8.0" = finalPath "/res" "8.0" /\
  tempFilePath "/res" "x/../checkstyle-8.0" = tempFilePath "/res" "8.0".
Proof. split; reflexivity. Qed.

End Names.

(** ** What a transfer leaves alone *)

Section Frames.
Import Server.

Variables link tmp final : string.

Lemma handleEvent_frame (t : Transfer) (ev : StreamEvent) (p : string) :
  p ≠ tmp -> p ≠ final ->
  files (world (handleEvent link tmp final t ev)) !! p = files (world t) !! p.
Proof.
  intros Htmp Hfinal. destruct ev as [state | chunk | err |]; simpl; try reflexivity.
  - unfold writeChunk. destruct (files (world t) !! tmp); [|reflexivity].
    now rewrite lookup_insert_ne.
  - unfold onEnd, rename. destruct (files (world t) !! tmp); [|reflexivity].
    simpl. rewrite lookup_insert_ne by congruence. now rewrite lookup_delete_ne.
Qed.

Lemma runStream_frame (evs : list StreamEvent) (p : string) :
  p ≠ tmp -> p ≠ final ->
  forall t, files (world (runStream link tmp final evs t)) !! p = files (world t) !! p.
Proof.
  intros Htmp Hfinal. induction evs as [|ev evs IH]; intros t; [reflexivity|].
  rewrite runStream_cons, IH. now apply handleEvent_frame.
Qed.


(** While the temp file is there and nothing has settled the promise, the
    first terminal event decides. *)
Lemma runStream_pending_ticks (ticks : list StreamEvent) :
  forall t, Forall (fun ev => isTick ev = true) ticks ->
            settled (runStream link tmp final ticks t) = settled t.
Proof.
  induction ticks as [|ev ticks IH]; intros t Hticks; [reflexivity|].
  apply Forall_cons in Hticks as [Hev Hticks].
  rewrite runStream_cons, IH by exact Hticks.
  now destruct ev.
Qed.

End Frames.

Lemma downloadingPercents_app (a b : list Notification) :
  Trace.downloadingPercents (a ++ b) =
  (Trace.downloadingPercents a ++ Trace.downloadingPercents b)%list.
Proof.
  induction a as [|n a IH]; [reflexivity|]. simpl.
  destruct n as [ | | | param]; try exact IH.
  destruct (downloadStatus param); try exact IH.
  destruct (percent param); [|exact IH]. simpl. now rewrite IH.
Qed.

(** ** The download on any stream *)

Section Streams.
Import Server.

Variable net : Network.
Variable connection : World.
Variables downloadPath version textDocumentUri : string.

Let link := downloadLink version.
Let tmp := tempFilePath downloadPath version.
Let final := finalPath downloadPath version.
Let result := downloadCheckstyle net connection downloadPath version textDocumentUri.
Let cleaned := removeStaleTemp tmp connection.

(** X2. Files are named by absolute, normalised paths, as [path.join]
    returns them for an absolute download path. A call with an absolute
    download path changes no file so named other than the temp file and
    the final artifact of its version, whatever the probe answers and
    whatever the stream delivers. The file is not below the temp path
    either: [remove] deletes what is below. *)
Theorem other_files_untouched (p : string) :
  isAbsolute downloadPath = true ->
  isAbsolute p = true -> normalize p = p ->
  p ≠ tmp -> p ≠ final ->
  String.prefix (tmp +:+ "/") p = false ->
  files (fst result) !! p = files connection !! p.
Proof.
  intros _ _ _ Htmp Hfinal _. unfold result, link, tmp, final in *.
  destruct (requestForVersion net (downloadLink version)) eqn:Hprobe.
  - rewrite (downloadCheckstyle_found net connection downloadPath
               version textDocumentUri Hprobe).
    cbv zeta. simpl fst. rewrite runStream_frame by assumption.
    simpl. unfold createWriteStream.
    rewrite lookup_insert_ne by (intros Heq; now apply Htmp).
    destruct (removeStaleTemp_clears (tempFilePath downloadPath version) connection)
      as (_ & _ & ->).
    now rewrite lookup_delete_ne.
  - rewrite downloadCheckstyle_not_found by congruence.
    rewrite Hprobe. reflexivity.
  - rewrite downloadCheckstyle_not_found by congruence.
    rewrite Hprobe. reflexivity.
Qed.

(** X3. A transfer that fails after its ticks returns [false], leaves what
    it has received at the temp path and leaves the final path as it was:
    an artifact of an earlier download is not replaced, and none is
    created. *)
Theorem failed_transfer_keeps_artifact (ticks : list StreamEvent) (err : Js.Error) :
  requestForVersion net link = Found ->
  stream net link = (ticks ++ [EvError err])%list ->
  Forall (fun ev => isTick ev = true) ticks ->
  snd result = Js.Fulfilled false /\
  files (fst result) !! tmp = Some (body ticks) /\
  files (fst result) !! final = files connection !! final.
Proof.
  intros Hprobe Hstream Hticks. unfold result, link, tmp, final in *.
  rewrite (downloadCheckstyle_found net connection downloadPath version
             textDocumentUri Hprobe), Hstream.
  cbv zeta. simpl fst. simpl snd.
  destruct (transfer_after_error connection downloadPath version ticks err Hticks)
    as (Hs & _ & Hf).
  cbv zeta in Hs, Hf. rewrite Hs, Hf.
  split; [reflexivity|]. split; [apply lookup_insert_eq|].
  apply lookup_insert_ne, temp_is_not_final.
Qed.

(** X5. The handlers keep no state between events. If the stream reports
    an error and ends afterwards, the call has already resolved to [false]
    and still renames the temp file: the log ends with the [error] status
    followed by [finished], and what was received before the error is at
    the final path. *)
Theorem end_after_error_promotes (ticks : list StreamEvent) (err : Js.Error) :
  requestForVersion net link = Found ->
  stream net link = (ticks ++ [EvError err; EvEnd])%list ->
  Forall (fun ev => isTick ev = true) ticks ->
  snd result = Js.Fulfilled false /\
  sent (fst result) =
    (sent connection ++ [DownloadStartNotification]
       ++ map downloadingStatus (map toPercent (progressFractions ticks))
       ++ [errorStatus
             (DownloadCheckstyleError ("Download Checkstyle fail: " +:+ errorCause err))
             link;
           finishedStatus])%list /\
  files (fst result) !! tmp = None /\
  files (fst result) !! final = Some (body ticks).
Proof.
  intros Hprobe Hstream Hticks. unfold result, link, tmp, final in *.
  rewrite (downloadCheckstyle_found net connection downloadPath version
             textDocumentUri Hprobe), Hstream.
  cbv zeta. simpl fst. simpl snd.
  change (ticks ++ [EvError err; EvEnd])%list
    with (ticks ++ [EvError err] ++ [EvEnd])%list.
  rewrite app_assoc, runStream_app.
  destruct (transfer_after_error connection downloadPath version ticks err Hticks)
    as (Hs & Hn & Hf).
  cbv zeta in Hs, Hn, Hf.
  simpl. unfold onEnd, rename. rewrite Hf, lookup_insert_eq. simpl.
  rewrite Hs, Hn, <- !app_assoc.
  split; [reflexivity|]. split; [reflexivity|]. split.
  - rewrite lookup_insert_ne by (intros Heq; now apply (temp_is_not_final downloadPath version)).
    apply lookup_delete_eq.
  - apply lookup_insert_eq.
Qed.


(** X7. The first terminal event decides what the call returns. A stream
    that ends after its ticks makes it return [true], whatever follows the
    end; a stream without an error or an end leaves the promise pending:
    the call never returns. *)
Theorem first_end_decides :
  requestForVersion net link = Found ->
  (forall ticks rest : list StreamEvent,
      stream net link = (ticks ++ EvEnd :: rest)%list ->
      Forall (fun ev => isTick ev = true) ticks ->
      snd result = Js.Fulfilled true) /\
  (Forall (fun ev => isTick ev = true) (stream net link) ->
   snd result = Js.Pending).
Proof.
  intros Hprobe. unfold result, link, tmp, final in *.
  rewrite (downloadCheckstyle_found net connection downloadPath version
             textDocumentUri Hprobe).
  cbv zeta. simpl snd. split.
  - intros ticks rest -> Hticks.
    change (ticks ++ EvEnd :: rest)%list with (ticks ++ [EvEnd] ++ rest)%list.
    rewrite app_assoc, runStream_app. apply runStream_fulfilled.
    now destruct (transfer_after_end connection downloadPath version ticks Hticks)
      as (Hs & _).
  - intros Hticks. now rewrite runStream_pending_ticks.
Qed.

End Streams.

Section Retry.
Import Server.

Variables first_host second_host : Network.
Variable connection : World.
Variables downloadPath version textDocumentUri : string.

Let link := downloadLink version.
Let tmp := tempFilePath downloadPath version.
Let final := finalPath downloadPath version.
Let first := downloadCheckstyle first_host connection downloadPath version textDocumentUri.
Let second := downloadCheckstyle second_host (fst first) downloadPath version textDocumentUri.

(** X4. A download can be retried. After a transfer that failed, a second
    call whose stream ends after its ticks returns [true] and leaves the
    same files as a first call on that stream would have left: the final
    path holds the second body only and the temp path is free. *)
Theorem retry_after_failure (ticks1 ticks2 : list StreamEvent) (err : Js.Error) :
  requestForVersion first_host link = Found ->
  stream first_host link = (ticks1 ++ [EvError err])%list ->
  Forall (fun ev => isTick ev = true) ticks1 ->
  requestForVersion second_host link = Found ->
  stream second_host link = (ticks2 ++ [EvEnd])%list ->
  Forall (fun ev => isTick ev = true) ticks2 ->
  snd first = Js.Fulfilled false /\
  snd second = Js.Fulfilled true /\
  files (fst second) =
    files (fst (downloadCheckstyle second_host connection downloadPath version
                  textDocumentUri)) /\
  files (fst second) !! tmp = None /\
  files (fst second) !! final = Some (body ticks2).
Proof.
  intros Hprobe1 Hstream1 Hticks1 Hprobe2 Hstream2 Hticks2.
  unfold second, first, link, tmp, final in *.
  set (run1 := downloadCheckstyle first_host connection downloadPath version
                  textDocumentUri).
  assert (Hfirst : snd run1 = Js.Fulfilled false /\
                   files (fst run1) =
                     <[tempFilePath downloadPath version := body ticks1]> (files connection)).
  { unfold run1.
    rewrite (downloadCheckstyle_found first_host connection downloadPath version
               textDocumentUri Hprobe1), Hstream1.
    cbv zeta. simpl fst. simpl snd.
    destruct (transfer_after_error connection downloadPath version ticks1 err Hticks1)
      as (Hs & _ & Hf).
    split; [exact Hs | exact Hf]. }
  destruct Hfirst as [Hret1 Hfiles1].
  assert (Hrun : forall w : World,
             snd (downloadCheckstyle second_host w downloadPath version textDocumentUri)
               = Js.Fulfilled true /\
             files (fst (downloadCheckstyle second_host w downloadPath version
                           textDocumentUri))
               = <[finalPath downloadPath version := body ticks2]>
                   (delete (tempFilePath downloadPath version) (files w))).
  { intros w.
    rewrite (downloadCheckstyle_found second_host w downloadPath version
               textDocumentUri Hprobe2), Hstream2.
    cbv zeta. simpl fst. simpl snd.
    destruct (transfer_after_end w downloadPath version ticks2 Hticks2)
      as (Hs & _ & Hf).
    split; [exact Hs | exact Hf]. }
  destruct (Hrun (fst run1)) as [Hret2 Hfiles2].
  destruct (Hrun connection) as [_ Hdirect].
  split; [exact Hret1|]. split; [exact Hret2|].
  rewrite Hfiles2, Hdirect, Hfiles1, delete_insert_eq.
  split; [reflexivity|]. split.
  - rewrite lookup_insert_ne by (intros Heq; now apply (temp_is_not_final downloadPath version)).
    apply lookup_delete_eq.
  - apply lookup_insert_eq.
Qed.

End Retry.

(** ** The controller on the notifications of a download *)

Section Relayed.
Import Client Relay.

Lemma deliver_app (c : Controller) (ns ms : list Notification) :
  deliver c (ns ++ ms) = deliver (deliver c ns) ms.
Proof. apply fold_left_app. Qed.

Lemma deliver_cons (c : Controller) (n : Notification) (ns : list Notification) :
  deliver c (n :: ns) = deliver (receive c n) ns.
Proof. reflexivity. Qed.

Lemma receive_start (c : Controller) :
  notificationHandlers c !! "checkstyle/downloadStart" = Some OnDownloadStart ->
  receive c DownloadStartNotification =
  onNotification downloadStatusMethod (OnDownloadStatus (length (progress c)))
    (withProgress c).
Proof. intros Hstart. unfold receive. simpl method. now rewrite Hstart. Qed.

Lemma receive_status_of (c : Controller) (task : nat) (param : IDownloadParams) :
  notificationHandlers c !! downloadStatusMethod = Some (OnDownloadStatus task) ->
  receive c (DownloadStatusNotification param) = onDownloadStatus task param c.
Proof.
  intros Hlistener. unfold receive. simpl method. fold downloadStatusMethod.
  now rewrite Hlistener.
Qed.

(** The [downloading] statuses of the newest task add one message each. *)
Lemma deliver_downloading (percents : list Z) :
  forall (c : Controller) (tasks : list ProgressTask) (p : ProgressTask),
    progress c = (tasks ++ [p])%list ->
    notificationHandlers c !! downloadStatusMethod =
      Some (OnDownloadStatus (length tasks)) ->
    deliver c (map downloadingStatus percents) =
    {| notificationHandlers := notificationHandlers c;
       progress :=
         tasks ++ [{| reported := reported p ++ map progressText percents;
                      outcome := outcome p |}];
       window := window c;
       answers := answers c;
       executed := executed c |}.
Proof.
  induction percents as [|pct percents IH]; intros c tasks p Hprogress Hlistener.
  - simpl. rewrite app_nil_r. destruct c as [hs ps w ans ran], p as [msgs out].
    simpl in *. now subst.
  - change (map downloadingStatus (pct :: percents))
      with (downloadingStatus pct :: map downloadingStatus percents).
    rewrite deliver_cons. unfold downloadingStatus at 1.
    rewrite (receive_status_of c (length tasks)) by exact Hlistener.
    unfold onDownloadStatus, updateTask. simpl downloadStatus. cbv iota.
    rewrite Hprogress, alter_app_r_alt, Nat.sub_diag by lia.
    rewrite (IH _ tasks (report (progressText pct) p)) by (simpl; auto).
    simpl. now rewrite <- app_assoc.
Qed.

(** A download that is announced, reports its percents and finishes. *)
Lemma deliver_finished_download (c : Controller) (percents : list Z) :
  notificationHandlers c !! "checkstyle/downloadStart" = Some OnDownloadStart ->
  deliver c (DownloadStartNotification :: map downloadingStatus percents ++ [finishedStatus]) =
  {| notificationHandlers :=
       <[downloadStatusMethod := OnDownloadStatus (length (progress c))]>
         (notificationHandlers c);
     progress := progress c ++ [taskOf percents (Js.Fulfilled tt)];
     window := window c;
     answers := answers c;
     executed := executed c |}.
Proof.
  intros Hstart. rewrite deliver_cons, receive_start by exact Hstart.
  rewrite deliver_app.
  rewrite (deliver_downloading percents _ (progress c)
             {| reported := ["Fetching the download link..."]; outcome := Js.Pending |})
    by (first [reflexivity | apply lookup_insert_eq]).
  rewrite deliver_cons. unfold finishedStatus at 1.
  rewrite (receive_status_of _ (length (progress c))) by apply lookup_insert_eq.
  unfold onDownloadStatus, updateTask. simpl.
  rewrite alter_app_r_alt, Nat.sub_diag by lia. reflexivity.
Qed.

End Relayed.

(** ** From the worker to the controller *)

Section EndToEnd.
Import Server.

Variable net : Network.
Variable connection : World.
Variables downloadPath version textDocumentUri : string.
Variable c : Client.Controller.

Let link := downloadLink version.
Let result := downloadCheckstyle net connection downloadPath version textDocumentUri.
Let after := Relay.deliver c (Trace.emitted connection (fst result)).

(** X9. A download that ends after its ticks, as the controller sees it:
    one new progress task, with the fetching message and one message per
    progress tick, whose promise is resolved; nothing is shown in the
    window, and the listener for the next [DownloadStart] is still
    there. *)
Theorem finished_download_relayed (ticks : list StreamEvent) :
  requestForVersion net link = Found ->
  stream net link = (ticks ++ [EvEnd])%list ->
  Forall (fun ev => isTick ev = true) ticks ->
  Client.notificationHandlers c !! "checkstyle/downloadStart" = Some Client.OnDownloadStart ->
  Client.progress after =
    (Client.progress c
       ++ [{| Client.reported :=
                "Fetching the download link..."
                  :: map Relay.progressText (map toPercent (progressFractions ticks));
              Client.outcome := Js.Fulfilled tt |}])%list /\
  Client.window after = Client.window c /\
  Client.notificationHandlers after !! "checkstyle/downloadStart" =
    Some Client.OnDownloadStart.
Proof.
  intros Hprobe Hstream Hticks Hstart. unfold after, result, link in *.
  rewrite (downloadCheckstyle_found net connection downloadPath version
             textDocumentUri Hprobe), Hstream.
  cbv zeta. simpl fst.
  destruct (transfer_after_end connection downloadPath version ticks Hticks)
    as (_ & Hn & _).
  cbv zeta in Hn. unfold Trace.emitted. rewrite Hn, drop_app_length.
  change ([DownloadStartNotification] ++ ?l)%list with (DownloadStartNotification :: l).
  rewrite deliver_finished_download by exact Hstart. simpl.
  split; [reflexivity|]. split; [reflexivity|].
  now rewrite lookup_insert_ne.
Qed.

(** X11. A version the host does not have, as the controller sees it: the
    warning that the version does not exist is shown and the user is asked;
    the command that sets the version is run, with the uri of the
    requesting document, exactly when the user answers Yes. No progress
    task is opened and nothing else is shown. *)
Theorem invalid_version_relayed :
  requestForVersion net link = Others ->
  Client.notificationHandlers c !! "checkstyle/versionInvalid" = Some Client.OnVersionInvalid ->
  Client.progress after = Client.progress c /\
  Client.warningMessages (Client.window after) =
    (Client.warningMessages (Client.window c) ++ [Client.versionInvalidMessage])%list /\
  Client.outputChannel (Client.window after) = Client.outputChannel (Client.window c) /\
  Client.errorMessages (Client.window after) = Client.errorMessages (Client.window c) /\
  Client.notificationHandlers after = Client.notificationHandlers c /\
  Client.executed after =
    (Client.executed c
       ++ match Client.answers c with
          | Some DialogResponses.yes :: _ => [("checkstyle.setVersion", textDocumentUri)]
          | _ => []
          end)%list /\
  Client.answers after = tail (Client.answers c).
Proof.
  intros Hprobe Hinvalid. unfold after, result, link in *.
  rewrite downloadCheckstyle_not_found by congruence.
  rewrite Hprobe. simpl. unfold Trace.emitted. simpl. rewrite drop_app_length.
  simpl. unfold Client.receive. simpl Client.method. rewrite Hinvalid.
  destruct c as [hs ps w user ran]. simpl.
  unfold Client.onVersionInvalid, Client.nextAnswer. simpl.
  destruct user as [|[[|]|] later]; simpl;
    rewrite ?app_nil_r; repeat split; reflexivity.
Qed.

End EndToEnd.

(** ** Progress tasks over any sequence of notifications *)

Section Tasks.
Import Client Relay.

Lemma resolve_settled {A} (a : A) (p : Js.Promise A) :
  p ≠ Js.Pending -> Js.resolve a p = p.
Proof. now destruct p. Qed.

Lemma reject_settled {A} (e : Js.Error) (p : Js.Promise A) :
  p ≠ Js.Pending -> Js.reject e p = p.
Proof. now destruct p. Qed.

Lemma onVersionInvalid_keeps (uri : string) (c : Controller) :
  progress (onVersionInvalid uri c) = progress c /\
  notificationHandlers (onVersionInvalid uri c) = notificationHandlers c.
Proof.
  unfold onVersionInvalid, nextAnswer. simpl.
  destruct (answers c) as [|[[|]|] later]; split; reflexivity.
Qed.

Lemma receive_keeps_settled (c : Controller) (n : Notification) (k : nat) (p : ProgressTask) :
  progress c !! k = Some p ->
  outcome p ≠ Js.Pending ->
  exists p', progress (receive c n) !! k = Some p' /\ outcome p' = outcome p.
Proof.
  intros Hk Hsettled. unfold receive.
  destruct (notificationHandlers c !! method n) as [h|]; [|eauto].
  destruct h as [| task |]; simpl.
  - exists p. split; [|reflexivity]. now apply lookup_app_l_Some.
  - destruct n as [ | | | param]; eauto.
    unfold onDownloadStatus.
    destruct (decide (task = k)) as [-> | Hne].
    + destruct (downloadStatus param); simpl.
      * rewrite list_lookup_alter_eq, Hk. eexists. split; reflexivity.
      * rewrite list_lookup_alter_eq, Hk. eexists. split; [reflexivity|].
        simpl. now apply resolve_settled.
      * destruct (error param); [|eauto]. simpl.
        rewrite list_lookup_alter_eq, Hk. eexists. split; [reflexivity|].
        simpl. now apply reject_settled.
    + destruct (downloadStatus param); simpl.
      * rewrite list_lookup_alter_ne by exact Hne. eauto.
      * rewrite list_lookup_alter_ne by exact Hne. eauto.
      * destruct (error param); [|eauto]. simpl.
        rewrite list_lookup_alter_ne by exact Hne. eauto.
  - destruct n as [ | uri | | ]; eauto.
    destruct (onVersionInvalid_keeps uri c) as [-> _]. eauto.
Qed.

(** X12. A progress task is settled once. Whatever notifications arrive
    after its promise has been resolved or rejected, the task stays where
    it is and its promise stays as it was settled. *)
Theorem task_settled_once (ns : list Notification) :
  forall (c : Controller) (k : nat) (p : ProgressTask),
    progress c !! k = Some p ->
    outcome p ≠ Js.Pending ->
    exists p', progress (deliver c ns) !! k = Some p' /\ outcome p' = outcome p.
Proof.
  induction ns as [|n ns IH]; intros c k p Hk Hsettled; [eauto|].
  rewrite deliver_cons.
  destruct (receive_keeps_settled c n k p Hk Hsettled) as (p1 & Hk1 & Hout1).
  destruct (IH (receive c n) k p1 Hk1) as (p' & Hk' & Hout').
  - now rewrite Hout1.
  - exists p'. split; [exact Hk' | congruence].
Qed.

(** X13. A notification changes at most one progress task: the one of the
    registered status listener. Every other task that exists is left as it
    is, by any notification. *)
Theorem other_tasks_untouched (c : Controller) (n : Notification) (k : nat) :
  (k < length (progress c))%nat ->
  notificationHandlers c !! downloadStatusMethod ≠ Some (OnDownloadStatus k) ->
  progress (receive c n) !! k = progress c !! k.
Proof.
  intros Hk Hother. unfold receive.
  destruct (notificationHandlers c !! method n) as [h|] eqn:Hh; [|reflexivity].
  destruct h as [| task |]; simpl.
  - now apply lookup_app_l.
  - destruct n as [ | | | param]; try reflexivity.
    simpl in Hh. fold downloadStatusMethod in Hh.
    assert (Hne : task ≠ k) by congruence.
    unfold onDownloadStatus. destruct (downloadStatus param); simpl.
    + now apply list_lookup_alter_ne.
    + now apply list_lookup_alter_ne.
    + destruct (error param); [|reflexivity]. simpl. now apply list_lookup_alter_ne.
  - destruct n as [ | uri | | ]; try reflexivity.
    now destruct (onVersionInvalid_keeps uri c) as [-> _].
Qed.

Lemma receive_wired (c : Controller) (n : Notification) :
  wired c ->
  length (progress (receive c n)) = (length (progress c) + starts [n])%nat /\
  wired (receive c n).
Proof.
  intros (Hstart & Hinvalid & Hshow & Hstatus). unfold receive.
  destruct n as [type message | uri | | param]; simpl method.
  - rewrite Hshow. rewrite Nat.add_0_r. now repeat split.
  - rewrite Hinvalid. simpl.
    destruct (onVersionInvalid_keeps uri c) as [Hprogress Hhandlers].
    unfold wired. rewrite Hprogress, Hhandlers, Nat.add_0_r. now repeat split.
  - rewrite Hstart. simpl. rewrite length_app. simpl.
    split; [reflexivity|]. unfold wired. simpl.
    rewrite !lookup_insert_ne by discriminate.
    split; [exact Hstart|]. split; [exact Hinvalid|]. split; [exact Hshow|].
    intros h Hh. rewrite lookup_insert_eq in Hh. injection Hh as <-.
    eexists. split; [reflexivity|]. rewrite length_app. simpl. lia.
  - fold downloadStatusMethod.
    destruct (notificationHandlers c !! downloadStatusMethod) as [h|] eqn:Hh.
    2: { rewrite Nat.add_0_r. split; [reflexivity|]. unfold wired. rewrite Hh.
         now repeat split. }
    destruct (Hstatus h eq_refl) as (task & -> & Htask). simpl.
    assert (Hsame : notificationHandlers (onDownloadStatus task param c)
                    = notificationHandlers c).
    { unfold onDownloadStatus. destruct (downloadStatus param); try reflexivity.
      now destruct (error param). }
    assert (Hlen : length (progress (onDownloadStatus task param c))
                   = length (progress c)).
    { unfold onDownloadStatus. destruct (downloadStatus param); simpl;
        rewrite ?length_alter; try reflexivity.
      destruct (error param); simpl; rewrite ?length_alter; reflexivity. }
    rewrite Hlen, Nat.add_0_r. split; [reflexivity|].
    unfold wired. rewrite Hsame, Hlen. repeat split; try assumption.
    intros h' Hh'. apply Hstatus. congruence.
Qed.

Lemma starts_cons (n : Notification) (ns : list Notification) :
  starts (n :: ns) = (starts [n] + starts ns)%nat.
Proof. unfold starts. simpl. now destruct (isDownloadStart n). Qed.

(** X14. From the listeners of [registerClientListener] on, every
    [DownloadStart] opens exactly one progress task and nothing else does:
    after any sequence of notifications there are as many new tasks as the
    sequence holds [DownloadStart]s, and the status listener, if there is
    one, belongs to a task that exists. *)
Theorem one_task_per_start (ns : list Notification) :
  forall c : Controller,
    wired c ->
    length (progress (deliver c ns)) = (length (progress c) + starts ns)%nat /\
    wired (deliver c ns).
Proof.
  induction ns as [|n ns IH]; intros c Hwired.
  - unfold starts. simpl. rewrite Nat.add_0_r. now split.
  - rewrite deliver_cons, starts_cons.
    destruct (receive_wired c n Hwired) as [Hlen Hwired'].
    destruct (IH (receive c n) Hwired') as [Hlen' Hwired''].
    split; [lia | exact Hwired''].
Qed.

Lemma registerClientListener_wired (tasks : list ProgressTask) (w : Window)
  (user : list (option DialogResponses.t)) (ran : list (string * string)) :
  wired (registerClientListener
           {| notificationHandlers := ∅; progress := tasks; window := w;
              answers := user; executed := ran |}).
Proof.
  unfold wired, registerClientListener. simpl. repeat split; try reflexivity.
  intros h Hh. discriminate Hh.
Qed.

End Tasks.

(** ** The commands of the extension *)

Section Registered.
Import Client Activation.

Variable callbacks : CommandCallbacks.
Variable commands : gmap string (Window -> Window).

(** X15. The five commands of [activate] do not shadow one another: each
    id runs the wrapper of its own callback, and a command registered
    before under any other id is still the one that runs. *)
Theorem commands_registered (w : Window) :
  executeCommand (registerCommands callbacks commands)
    "checkstyle.checkCodeWithCheckstyle" w = wrapped (checkCodeWithCheckstyle callbacks) w /\
  executeCommand (registerCommands callbacks commands)
    "checkstyle.setVersion" w = wrapped (setCheckstyleVersion callbacks) w /\
  executeCommand (registerCommands callbacks commands)
    "checkstyle.setConfigurationFile" w = wrapped (setCheckstyleConfig callbacks) w /\
  executeCommand (registerCommands callbacks commands)
    "checkstyle.setPropertyFile" w = wrapped (setCheckstyleProperties callbacks) w /\
  executeCommand (registerCommands callbacks commands)
    "checkstyle.setAutocheck" w = wrapped (setAutoCheckStatus callbacks) w /\
  (forall commandId : string,
      commandId ∉ commandIds ->
      executeCommand (registerCommands callbacks commands) commandId w =
      executeCommand commands commandId w).
Proof.
  unfold executeCommand, registerCommands, initCommand.
  repeat split.
  - rewrite !lookup_insert_ne by discriminate. now rewrite lookup_insert_eq.
  - rewrite !lookup_insert_ne by discriminate. now rewrite lookup_insert_eq.
  - rewrite !lookup_insert_ne by discriminate. now rewrite lookup_insert_eq.
  - rewrite !lookup_insert_ne by discriminate. now rewrite lookup_insert_eq.
  - now rewrite lookup_insert_eq.
  - intros commandId Hother. unfold commandIds in Hother.
    rewrite !lookup_insert_ne; try reflexivity;
      intros <-; apply Hother; set_solver.
Qed.

(** X16. Whatever a callback does, its wrapper shows no warning and adds at
    most one line: the output channel and the error messages are the ones
    the callback left, both extended by the same line or by none, and by
    none when the callback returns. *)
Theorem wrapper_adds_one_line (callback : Callback) (w : Window) :
  exists lines : list string,
    (length lines <= 1)%nat /\
    outputChannel (wrapped callback w) = (outputChannel (fst (callback w)) ++ lines)%list /\
    errorMessages (wrapped callback w) = (errorMessages (fst (callback w)) ++ lines)%list /\
    warningMessages (wrapped callback w) = warningMessages (fst (callback w)) /\
    (snd (callback w) = Returns -> lines = []).
Proof.
  unfold wrapped. destruct (callback w) as [w1 [|error]]; simpl.
  - exists []. rewrite !app_nil_r. repeat split; simpl; lia.
  - destruct (Js.isUserCancelled error).
    + exists []. rewrite !app_nil_r. repeat split; simpl; try lia; discriminate.
    + exists [getErrorMessage error]. simpl. repeat split; try lia; discriminate.
Qed.

End Registered.

(** ** The configuration middleware on batches *)

Section Batches.
Import Client.

(** X17. Queries can be batched: the answer to the items of two queries put
    together is the answer to the first followed by the answer to the
    second, and the answer to an empty array of items is an empty array,
    not [null]. *)
Theorem computeConfiguration_batches (ws : Workspace) (first second : list ConfigurationItem) :
  computeConfiguration ws {| items := Some [] |} = Some [] /\
  exists answers1 answers2 : list (option ICheckStyleSettings),
    computeConfiguration ws {| items := Some first |} = Some answers1 /\
    computeConfiguration ws {| items := Some second |} = Some answers2 /\
    computeConfiguration ws {| items := Some (first ++ second)%list |} =
      Some (answers1 ++ answers2)%list.
Proof.
  split; [reflexivity|].
  exists (map (resolveItem ws) first), (map (resolveItem ws) second).
  rewrite (computeConfiguration_items ws first {| items := Some first |} eq_refl).
  rewrite (computeConfiguration_items ws second {| items := Some second |} eq_refl).
  rewrite (computeConfiguration_items ws (first ++ second)
             {| items := Some (first ++ second)%list |} eq_refl), map_app.
  auto.
Qed.

(** X18. The middleware reads the [checkstyle] section only: two workspaces
    that hold the same [checkstyle] configuration for every resource and
    convert uris alike give the same answer to every query, whatever their
    other sections hold. *)
Theorem computeConfiguration_reads_checkstyle (ws1 ws2 : Workspace)
  (params : ConfigurationParams) :
  (forall resource : option string,
      getConfiguration ws1 "checkstyle" resource = getConfiguration ws2 "checkstyle" resource) ->
  (forall u : string, asUri ws1 u = asUri ws2 u) ->
  computeConfiguration ws1 params = computeConfiguration ws2 params.
Proof.
  intros Hsection Huri. unfold computeConfiguration.
  destruct (items params) as [its|]; [|reflexivity].
  rewrite !push_loop. f_equal. f_equal. apply map_ext. intros item.
  unfold resolveItem. destruct (Js.truthy (section item)); [reflexivity|].
  destruct (scopeUri item) as [u|]; [|now rewrite Hsection].
  destruct (Js.truthy (Some u)); now rewrite ?Huri, Hsection.
Qed.

End Batches.

(** ** The configuration listener *)

Section ConfigurationChanges.
Import ConfigurationListener.

Lemma filter_fresh (subs : list nat) (d : nat) :
  Forall (fun s => (s < d)%nat) subs -> filter (fun s => s ≠ d) subs = subs.
Proof.
  induction 1 as [|s subs Hs _ IH]; [reflexivity|].
  rewrite filter_cons_True by lia. now rewrite IH.
Qed.

Lemma initialize_fresh (h : Host) : fresh h -> fresh (initialize h).
Proof.
  unfold fresh. simpl. intros Hfresh. apply Forall_app. split.
  - eapply Forall_impl; [exact Hfresh|]. simpl. lia.
  - repeat constructor.
Qed.

Lemma configurationChanged_sends (h : Host) :
  toServer (configurationChanged h) =
  (toServer h
     ++ map (fun _ => DidChangeConfigurationNotification None) (subscriptions h))%list.
Proof. reflexivity. Qed.

Lemma dispose_toServer (h : Host) : toServer (dispose h) = toServer h.
Proof. unfold dispose. now destruct (configurationListener h). Qed.

(** X19. [dispose] undoes [initialize]: after the two, the listeners are
    the ones there were before, so that on a host without listeners a
    change of the configuration sends one notification, with [settings]
    [null], between [initialize] and [dispose], and none after [dispose].
    [dispose] without a listener changes nothing. *)
Theorem dispose_undoes_initialize (h : Host) :
  fresh h ->
  subscriptions (dispose (initialize h)) = subscriptions h /\
  (subscriptions h = [] ->
     toServer (configurationChanged (initialize h)) =
       (toServer h ++ [DidChangeConfigurationNotification None])%list /\
     toServer (configurationChanged (dispose (initialize h))) = toServer h) /\
  (configurationListener h = None -> dispose h = h).
Proof.
  intros Hfresh.
  assert (Hsubs : subscriptions (dispose (initialize h)) = subscriptions h).
  { unfold dispose, initialize. simpl. rewrite filter_app, filter_fresh by exact Hfresh.
    rewrite filter_cons_False by (intros Hne; now apply Hne).
    rewrite filter_nil. apply app_nil_r. }
  split; [exact Hsubs|]. split.
  - intros Hnone. split.
    + rewrite configurationChanged_sends. simpl. now rewrite Hnone.
    + rewrite configurationChanged_sends, dispose_toServer, Hsubs, Hnone.
      simpl. apply app_nil_r.
  - intros Hnone. unfold dispose. now rewrite Hnone.
Qed.

(** X20. [initialize] keeps the latest disposable only. After two calls,
    [dispose] removes the second listener and the first one stays: every
    change of the configuration still sends its notification. *)
Theorem second_initialize_leaks (h : Host) :
  fresh h ->
  subscriptions (dispose (initialize (initialize h))) =
    (subscriptions h ++ [nextSubscription h])%list /\
  toServer (configurationChanged (dispose (initialize (initialize h)))) =
    (toServer h
       ++ map (fun _ => DidChangeConfigurationNotification None) (subscriptions h)
       ++ [DidChangeConfigurationNotification None])%list.
Proof.
  intros Hfresh.
  assert (Hsubs : subscriptions (dispose (initialize (initialize h)))
                  = (subscriptions h ++ [nextSubscription h])%list).
  { pose proof (initialize_fresh h Hfresh) as Hfresh1.
    unfold dispose. simpl configurationListener. cbv iota. simpl subscriptions.
    rewrite filter_app.
    change (subscriptions h ++ [nextSubscription h])%list
      with (subscriptions (initialize h)).
    rewrite filter_fresh by exact Hfresh1.
    rewrite filter_cons_False by (intros Hne; now apply Hne).
    rewrite filter_nil. apply app_nil_r. }
  split; [exact Hsubs|].
  rewrite configurationChanged_sends, dispose_toServer, Hsubs, map_app. reflexivity.
Qed.

End ConfigurationChanges.

(** ** More runs *)

Section MoreRuns.
Import Server Scenario Cases.

Lemma versions_do_not_collide_witness :
  checkstyleJar "8.0" ≠ checkstyleJar "8.1" /\
  tempFilePath "/res" "8.0" ≠ finalPath "/res" "8.0.download".
Proof.
  destruct (versions_do_not_collide "/res" "8.0" "8.1") as (Hjar & _ & _ & _).
  destruct (versions_do_not_collide "/res" "8.0" "8.0.download") as (_ & _ & _ & Htmp).
  split; [|exact Htmp].
  intros Heq. apply Hjar in Heq. discriminate Heq.
Defined.

Lemma other_files_untouched_witness :
  files (fst (downloadCheckstyle goodHost busyWorld "/res" "8.0" mainJava))
    !! "/res/checkstyle-7.0-all.jar" = Some "old".
Proof.
  rewrite (other_files_untouched goodHost busyWorld "/res" "8.0" mainJava
             "/res/checkstyle-7.0-all.jar").
  - reflexivity.
  - reflexivity.
  - reflexivity.
  - reflexivity.
  - intros Heq. vm_compute in Heq. discriminate Heq.
  - intros Heq. vm_compute in Heq. discriminate Heq.
  - reflexivity.
Defined.

Lemma failed_transfer_keeps_artifact_witness :
  snd brokenRun = Js.Fulfilled false /\
  files (fst brokenRun) !! "/res/checkstyle-8.0-all.jar.download" = Some "PK" /\
  files (fst brokenRun) !! "/res/checkstyle-8.0-all.jar" = None.
Proof.
  exact (failed_transfer_keeps_artifact brokenHost staleWorld "/res" "8.0" mainJava
           resetTicks reset eq_refl eq_refl resetTicks_are_ticks).
Defined.

Lemma retry_after_failure_witness :
  snd brokenRun = Js.Fulfilled false /\
  snd retried = Js.Fulfilled true /\
  files (fst retried) = files (fst goodRun) /\
  files (fst retried) !! "/res/checkstyle-8.0-all.jar.download" = None /\
  files (fst retried) !! "/res/checkstyle-8.0-all.jar" = Some "PK34".
Proof.
  exact (retry_after_failure brokenHost goodHost staleWorld "/res" "8.0" mainJava
           resetTicks goodTicks reset eq_refl eq_refl resetTicks_are_ticks
           eq_refl eq_refl goodTicks_are_ticks).
Defined.

Lemma end_after_error_promotes_witness :
  snd (downloadCheckstyle errorThenEnd staleWorld "/res" "8.0" mainJava)
    = Js.Fulfilled false /\
  last (sent (fst (downloadCheckstyle errorThenEnd staleWorld "/res" "8.0" mainJava)))
    = Some finishedStatus /\
  files (fst (downloadCheckstyle errorThenEnd staleWorld "/res" "8.0" mainJava))
    !! "/res/checkstyle-8.0-all.jar" = Some "PK".
Proof.
  destruct (end_after_error_promotes errorThenEnd staleWorld "/res" "8.0" mainJava
              resetTicks reset eq_refl eq_refl resetTicks_are_ticks)
    as (Hret & Hsent & _ & Hfinal).
  split; [exact Hret|]. split; [|exact Hfinal].
  rewrite Hsent. reflexivity.
Defined.


Lemma first_end_decides_witness : snd goodRun = Js.Fulfilled true.
Proof.
  destruct (first_end_decides goodHost staleWorld "/res" "8.0" mainJava eq_refl)
    as [Hend _].
  exact (Hend goodTicks [] eq_refl goodTicks_are_ticks).
Defined.

Lemma finished_download_relayed_witness :
  Client.progress (Relay.deliver freshController (sent (fst goodRun))) =
    [{| Client.reported :=
          [ "Fetching the download link..."; "Downloading checkstyle... 10%";
            "Downloading checkstyle... 50%"; "Downloading checkstyle... 100%" ];
        Client.outcome := Js.Fulfilled tt |}] /\
  Client.window (Relay.deliver freshController (sent (fst goodRun))) = emptyWindow.
Proof.
  destruct (finished_download_relayed goodHost staleWorld "/res" "8.0" mainJava
              freshController goodTicks eq_refl eq_refl goodTicks_are_ticks eq_refl)
    as (Hprogress & Hwindow & _).
  split; [exact Hprogress | exact Hwindow].
Defined.

Lemma invalid_version_relayed_witness :
  Client.progress (Relay.deliver agreeing (sent (fst invalidRun))) = [] /\
  Client.warningMessages
    (Client.window (Relay.deliver agreeing (sent (fst invalidRun)))) =
    [Client.versionInvalidMessage] /\
  Client.executed (Relay.deliver agreeing (sent (fst invalidRun))) =
    [("checkstyle.setVersion", mainJava)] /\
  Client.answers (Relay.deliver agreeing (sent (fst invalidRun))) = [].
Proof.
  destruct (invalid_version_relayed noSuchVersion staleWorld "/res" "999.0" mainJava
              agreeing eq_refl eq_refl)
    as (Hprogress & Hwarned & _ & _ & _ & Hran & Hleft).
  split; [exact Hprogress|]. split; [exact Hwarned|].
  split; [exact Hran | exact Hleft].
Defined.

(** A late [error] status shows its warning and leaves the finished task
    resolved. *)
Lemma task_settled_once_witness :
  exists p : Client.ProgressTask,
    Client.progress
      (Relay.deliver afterFinished [errorStatus reset "link"; halfway]) !! 0%nat = Some p /\
    Client.outcome p = Js.Fulfilled tt.
Proof.
  destruct (task_settled_once [errorStatus reset "link"; halfway] afterFinished 0%nat
              {| Client.reported := ["Fetching the download link..."];
                 Client.outcome := Js.Fulfilled tt |} eq_refl)
    as (p & Hp & Hout); [discriminate|].
  exists p. split; [exact Hp | exact Hout].
Defined.

(** The statuses of the second download leave the first task alone. *)
Lemma other_tasks_untouched_witness :
  Client.progress (Client.receive secondStarted halfway) !! 0%nat =
  Client.progress afterFinished !! 0%nat.
Proof.
  rewrite (other_tasks_untouched secondStarted halfway 0%nat).
  - reflexivity.
  - vm_compute. lia.
  - discriminate.
Defined.

Lemma one_task_per_start_witness :
  length (Client.progress
            (Relay.deliver freshController
               [DownloadStartNotification; halfway; finishedStatus;
                VersionInvalidNotification mainJava; DownloadStartNotification])) = 2%nat.
Proof.
  destruct (one_task_per_start
              [DownloadStartNotification; halfway; finishedStatus;
               VersionInvalidNotification mainJava; DownloadStartNotification]
              freshController (registerClientListener_wired [] emptyWindow [] []))
    as [Hlen _].
  exact Hlen.
Defined.

Lemma commands_registered_witness :
  Client.executeCommand (Activation.registerCommands callbacks ∅)
    "checkstyle.setVersion" emptyWindow = emptyWindow /\
  Client.executeCommand (Activation.registerCommands callbacks ∅)
    "checkstyle.checkCodeWithCheckstyle" emptyWindow =
    {| Client.outputChannel := ["Checkstyle Error: - 'ETIMEDOUT'"];
       Client.errorMessages := ["Checkstyle Error: - 'ETIMEDOUT'"];
       Client.warningMessages := [] |} /\
  Client.executeCommand (Activation.registerCommands callbacks ∅)
    "workbench.action.files.save" emptyWindow = emptyWindow.
Proof.
  destruct (commands_registered callbacks ∅ emptyWindow)
    as (Hcheck & Hversion & _ & _ & _ & Hother).
  split; [exact Hversion|]. split; [exact Hcheck|].
  rewrite Hother; [reflexivity|].
  unfold Activation.commandIds. intros Hin.
  repeat (apply elem_of_cons in Hin as [Heq | Hin]; [discriminate Heq|]).
  now apply elem_of_nil in Hin.
Defined.

Lemma wrapper_adds_one_line_witness :
  Client.warningMessages (Client.wrapped failing emptyWindow) = [] /\
  Client.outputChannel (Client.wrapped failing emptyWindow) =
    Client.errorMessages (Client.wrapped failing emptyWindow).
Proof.
  destruct (wrapper_adds_one_line failing emptyWindow)
    as (lines & _ & Hlog & Hshown & Hwarned & _).
  split; [exact Hwarned|]. rewrite Hlog, Hshown. reflexivity.
Defined.

Lemma computeConfiguration_reads_checkstyle_witness :
  Client.computeConfiguration otherWorkspace query =
  Client.computeConfiguration plainWorkspace query.
Proof.
  apply computeConfiguration_reads_checkstyle; reflexivity.
Defined.

Lemma dispose_undoes_initialize_witness :
  ConfigurationListener.toServer
    (ConfigurationListener.configurationChanged
       (ConfigurationListener.initialize ConfigurationListener.startup)) =
    [ConfigurationListener.DidChangeConfigurationNotification None] /\
  ConfigurationListener.toServer
    (ConfigurationListener.configurationChanged
       (ConfigurationListener.dispose
          (ConfigurationListener.initialize ConfigurationListener.startup))) = [].
Proof.
  destruct (dispose_undoes_initialize ConfigurationListener.startup)
    as (_ & Hchange & _); [constructor|].
  exact (Hchange eq_refl).
Defined.

Lemma second_initialize_leaks_witness :
  ConfigurationListener.subscriptions
    (ConfigurationListener.dispose
       (ConfigurationListener.initialize
          (ConfigurationListener.initialize ConfigurationListener.startup))) = [0%nat].
Proof.
  destruct (second_initialize_leaks ConfigurationListener.startup) as [Hsubs _];
    [constructor|].
  exact Hsubs.
Defined.

End MoreRuns.
